(** * FEAL-8 (1989 reference, portable variant): shallow embedding

    Source: [src/experiments/feal/feal8_1989_portable.c].

    The C program keeps its expanded key in process-wide variables, caches
    the 2-bit rotation in a lazily filled static table, and converts between
    bytes and words through unions.  The embedding keeps all three:

    - the process-wide variables and the two statics of [Rot2] form the
      record [Globals], threaded through a state-and-failure monad [M]
      ([None] is undefined behaviour: a read outside the object pointed to,
      or a loop that did not finish within its fuel);
    - a union is the list of the bytes of its storage; its [All] member is
      read and written through the host's integer representation, its
      [Byte] member addresses the first bytes of the storage;
    - the host (byte order and data model) is a parameter, because the
      source documents itself as endian-dependent and names both the ILP32
      and the LP64 data model. *)

From Stdlib Require Import ZArith List Lia Bool.
From stdpp Require Import base option list.
Import ListNotations.
Local Open Scope Z_scope.

(** ** Hosts *)

Inductive Endian : Type := LittleEndian | BigEndian.
Inductive DataModel : Type := ILP32 | LP64.

Record Host : Type := mkHost { endian : Endian; data_model : DataModel }.

(** [sizeof(unsigned long)], the carrier of [HalfWord]. *)
Definition sizeof_long (h : Host) : nat :=
  match data_model h with ILP32 => 4%nat | LP64 => 8%nat end.

(** [sizeof(unsigned int)], the carrier of [QuarterWord]: 4 bytes in both
    data models. *)
Definition sizeof_int (h : Host) : nat := 4%nat.

(** The host the portability notes of the source are written for
    (64-bit Unix, the bytes of [Byte[4]] overlaying the low half of [All]). *)
Definition lp64_le : Host := mkHost LittleEndian LP64.
Definition ilp32_le : Host := mkHost LittleEndian ILP32.
Definition ilp32_be : Host := mkHost BigEndian ILP32.
Definition lp64_be : Host := mkHost BigEndian LP64.

(** ** Bytes and object representations *)

(** Conversion of an [int] value to [ByteType] (unsigned char). *)
Definition to_ByteType (v : Z) : Z := v mod 256.

Definition is_byte (b : Z) : Prop := 0 <= b < 256.

Fixpoint encode_le (n : nat) (v : Z) : list Z :=
  match n with
  | O => []
  | S n' => v mod 256 :: encode_le n' (v / 256)
  end.

Fixpoint decode_le (l : list Z) : Z :=
  match l with
  | [] => 0
  | b :: l' => b + 256 * decode_le l'
  end.

(** Storing an unsigned integer into an object of [n] bytes (the value is
    reduced modulo [2^(8n)], as C's conversion to the unsigned type does),
    and reading it back. *)
Definition store_All (h : Host) (n : nat) (v : Z) : list Z :=
  match endian h with
  | LittleEndian => encode_le n v
  | BigEndian => rev (encode_le n v)
  end.

Definition load_All (h : Host) (m : list Z) : Z :=
  match endian h with
  | LittleEndian => decode_le m
  | BigEndian => decode_le (rev m)
  end.

(** [u.Byte[i]] for an index inside the storage of the union. *)
Definition Byte (u : list Z) (i : nat) : Z := default 0 (u !! i).

(** A union initialised with [= {0}]: every byte of its storage is zero. *)
Definition zero_init (n : nat) : list Z := replicate n 0.

(** ** Process-wide state *)

Record Globals : Type := mkGlobals {
  K : list Z;             (* QuarterWord K[16] *)
  K89 : Z;
  K1011 : Z;
  K1213 : Z;
  K1415 : Z;
  Rot2_First : Z;         (* static int First = 1 *)
  Rot2_RetVal : list Z    (* static ByteType RetVal[256] *)
}.

(** The state at program start: objects of static storage duration are
    zero-initialised, [First] starts at 1. *)
Definition initial_globals : Globals :=
  mkGlobals (replicate 16 0) 0 0 0 0 1 (replicate 256 0).

Definition set_K (v : list Z) (g : Globals) : Globals :=
  mkGlobals v (K89 g) (K1011 g) (K1213 g) (K1415 g) (Rot2_First g) (Rot2_RetVal g).
Definition set_K89 (v : Z) (g : Globals) : Globals :=
  mkGlobals (K g) v (K1011 g) (K1213 g) (K1415 g) (Rot2_First g) (Rot2_RetVal g).
Definition set_K1011 (v : Z) (g : Globals) : Globals :=
  mkGlobals (K g) (K89 g) v (K1213 g) (K1415 g) (Rot2_First g) (Rot2_RetVal g).
Definition set_K1213 (v : Z) (g : Globals) : Globals :=
  mkGlobals (K g) (K89 g) (K1011 g) v (K1415 g) (Rot2_First g) (Rot2_RetVal g).
Definition set_K1415 (v : Z) (g : Globals) : Globals :=
  mkGlobals (K g) (K89 g) (K1011 g) (K1213 g) v (Rot2_First g) (Rot2_RetVal g).
Definition set_Rot2 (first : Z) (tbl : list Z) (g : Globals) : Globals :=
  mkGlobals (K g) (K89 g) (K1011 g) (K1213 g) (K1415 g) first tbl.

(** ** The monad of the program: global state, undefined behaviour *)

Definition M (A : Type) : Type := Globals -> option (A * Globals).

Definition ret {A : Type} (a : A) : M A := fun g => Some (a, g).

Definition bind {A B : Type} (m : M A) (k : A -> M B) : M B :=
  fun g => match m g with
           | Some (a, g') => k a g'
           | None => None
           end.

Definition undefined {A : Type} : M A := fun _ => None.

Definition gets {A : Type} (proj : Globals -> A) : M A := fun g => Some (proj g, g).

Definition modify (upd : Globals -> Globals) : M unit := fun g => Some (tt, upd g).

(** Reading [p[i]] and writing [p[i] = v], for a pointer to the first
    element of an array object with elements [obj]: an index outside the
    object is undefined behaviour. *)
Definition deref (obj : list Z) (i : nat) : M Z :=
  match obj !! i with
  | Some v => ret v
  | None => undefined
  end.

Definition assign (obj : list Z) (i : nat) (v : Z) : M (list Z) :=
  if decide (i < length obj)%nat then ret (<[i := v]> obj) else undefined.

Notation "'do' x <- m ; k" := (bind m (fun x => k))
  (at level 10, x name, m at level 100, k at level 200).
Notation "'run' m ; k" := (bind m (fun _ => k))
  (at level 10, m at level 100, k at level 200).

(** ** Rot2, S0, S1 *)

(** The body of the [for] loop that fills the table; [fuel] bounds the
    number of evaluations of the loop condition. *)
Fixpoint Rot2_fill (fuel : nat) (i High Low : Z) (RetVal : list Z)
  : option (list Z) :=
  match fuel with
  | O => None
  | S fuel' =>
      if i <? 256 then
        let RetVal' := <[Z.to_nat i := to_ByteType (High + Low)]> RetVal in
        let High' := High + 4 in
        if High' >? 255
        then Rot2_fill fuel' (i + 1) 0 (Low + 1) RetVal'
        else Rot2_fill fuel' (i + 1) High' Low RetVal'
      else Some RetVal
  end.

Definition Rot2 (X : Z) : M Z :=
  do First <- gets Rot2_First;
  run (if First =? 0 then ret tt
       else
         do RetVal <- gets Rot2_RetVal;
         match Rot2_fill 257 0 0 0 RetVal with
         | Some RetVal' => modify (set_Rot2 0 RetVal')
         | None => undefined
         end);
  do RetVal <- gets Rot2_RetVal;
  deref RetVal (Z.to_nat X).

Definition S0 (X1 X2 : Z) : M Z := Rot2 (to_ByteType (Z.land (X1 + X2) 255)).

Definition S1 (X1 X2 : Z) : M Z := Rot2 (to_ByteType (Z.land (X1 + X2 + 1) 255)).

(** ** Conversions between bytes and words *)

(** [MakeH1(B + off)]: [B] is the array the pointer points into. *)
Definition MakeH1 (h : Host) (B : list Z) (off : nat) : M Z :=
  let RetVal := zero_init (sizeof_long h) in
  do b <- deref B off;
  let RetVal := <[0%nat := b]> RetVal in
  do b <- deref B (off + 1);
  let RetVal := <[1%nat := b]> RetVal in
  do b <- deref B (off + 2);
  let RetVal := <[2%nat := b]> RetVal in
  do b <- deref B (off + 3);
  let RetVal := <[3%nat := b]> RetVal in
  ret (load_All h RetVal).

(** [DissH1(H, D + off)]: returns the new contents of the array [D]. *)
Definition DissH1 (h : Host) (H : Z) (D : list Z) (off : nat) : M (list Z) :=
  let T := store_All h (sizeof_long h) H in
  do D <- assign D off (Byte T 0);
  do D <- assign D (off + 1) (Byte T 1);
  do D <- assign D (off + 2) (Byte T 2);
  assign D (off + 3) (Byte T 3).

(** [DissQ1(Q, B + off)]. *)
Definition DissQ1 (h : Host) (Q : Z) (B : list Z) (off : nat) : M (list Z) :=
  let QQ := store_All h (sizeof_int h) Q in
  do B <- assign B off (Byte QQ 0);
  assign B (off + 1) (Byte QQ 1).

(** [MakeH2(Q + off)]; the local array [B[4]] is written in full before
    [MakeH1] reads it. *)
Definition MakeH2 (h : Host) (Q : list Z) (off : nat) : M Z :=
  let B := replicate 4 0 in
  do q <- deref Q off;
  do B <- DissQ1 h q B 0;
  do q <- deref Q (off + 1);
  do B <- DissQ1 h q B 2;
  MakeH1 h B 0.

(** ** The round function and the key-schedule combiner *)

Definition f (h : Host) (AA BB : Z) : M Z :=
  let RetVal := zero_init (sizeof_long h) in
  let A := store_All h (sizeof_long h) AA in
  let B := store_All h (sizeof_int h) BB in
  let f1 := to_ByteType (Z.lxor (Z.lxor (Byte A 1) (Byte B 0)) (Byte A 0)) in
  let f2 := to_ByteType (Z.lxor (Z.lxor (Byte A 2) (Byte B 1)) (Byte A 3)) in
  do f1 <- S1 f1 f2;
  do f2 <- S0 f2 f1;
  let RetVal := <[1%nat := f1]> RetVal in
  let RetVal := <[2%nat := f2]> RetVal in
  do s <- S0 (Byte A 0) f1;
  let RetVal := <[0%nat := s]> RetVal in
  do s <- S1 (Byte A 3) f2;
  let RetVal := <[3%nat := s]> RetVal in
  ret (load_All h RetVal).

Definition FK (h : Host) (AA BB : Z) : M Z :=
  let RetVal := zero_init (sizeof_long h) in
  let A := store_All h (sizeof_long h) AA in
  let B := store_All h (sizeof_long h) BB in
  let FK1 := to_ByteType (Z.lxor (Byte A 1) (Byte A 0)) in
  let FK2 := to_ByteType (Z.lxor (Byte A 2) (Byte A 3)) in
  do FK1 <- S1 FK1 (Z.lxor FK2 (Byte B 0));
  do FK2 <- S0 FK2 (Z.lxor FK1 (Byte B 1));
  let RetVal := <[1%nat := FK1]> RetVal in
  let RetVal := <[2%nat := FK2]> RetVal in
  do s <- S0 (Byte A 0) (Z.lxor FK1 (Byte B 2));
  let RetVal := <[0%nat := s]> RetVal in
  do s <- S1 (Byte A 3) (Z.lxor FK2 (Byte B 3));
  let RetVal := <[3%nat := s]> RetVal in
  ret (load_All h RetVal).

(** ** Key schedule *)

(** [K[i]] and [*Out = v] for [Out = K + i]. *)
Definition read_K (i : nat) : M Z :=
  do k <- gets K; deref k i.

Definition write_K (i : nat) (v : Z) : M unit :=
  do k <- gets K;
  do k' <- assign k i v;
  modify (set_K k').

(** The [for] loop of [SetKey]; [Out] is the index into [K] the pointer
    [Out] stands at, [A], [B], [D], [Q] are the storage of the unions. *)
Fixpoint SetKey_loop (h : Host) (fuel : nat) (i : Z) (Out : nat)
    (A B D Q : list Z) : M unit :=
  match fuel with
  | O => undefined
  | S fuel' =>
      if i <=? 8 then
        do r <- FK h (load_All h A) (Z.lxor (load_All h B) (load_All h D));
        let NewB := store_All h (sizeof_long h) r in
        let D := A in
        let A := B in
        let B := NewB in
        let Q := <[0%nat := Byte B 0]> Q in
        let Q := <[1%nat := Byte B 1]> Q in
        run write_K Out (load_All h Q);
        let Q := <[0%nat := Byte B 2]> Q in
        let Q := <[1%nat := Byte B 3]> Q in
        run write_K (Out + 1) (load_All h Q);
        SetKey_loop h fuel' (i + 1) (Out + 2) A B D Q
      else ret tt
  end.

Definition SetKey (h : Host) (KP : list Z) : M unit :=
  let A := zero_init (sizeof_long h) in
  let B := zero_init (sizeof_long h) in
  let Q := zero_init (sizeof_int h) in
  do b <- deref KP 0; let A := <[0%nat := b]> A in
  do b <- deref KP 1; let A := <[1%nat := b]> A in
  do b <- deref KP 2; let A := <[2%nat := b]> A in
  do b <- deref KP 3; let A := <[3%nat := b]> A in
  do b <- deref KP 4; let B := <[0%nat := b]> B in
  do b <- deref KP 5; let B := <[1%nat := b]> B in
  do b <- deref KP 6; let B := <[2%nat := b]> B in
  do b <- deref KP 7; let B := <[3%nat := b]> B in
  let D := store_All h (sizeof_long h) 0 in
  run SetKey_loop h 9 1 0 A B D Q;
  do k <- gets K; do v <- MakeH2 h k 8; run modify (set_K89 v);
  do k <- gets K; do v <- MakeH2 h k 10; run modify (set_K1011 v);
  do k <- gets K; do v <- MakeH2 h k 12; run modify (set_K1213 v);
  do k <- gets K; do v <- MakeH2 h k 14; modify (set_K1415 v).

(** ** Feistel engine *)

(** The body of the [for] loop of [Encrypt], and the loop. *)
Definition Encrypt_round (h : Host) (r : Z) (L R : Z) : M (Z * Z) :=
  do Kr <- read_K (Z.to_nat r);
  do x <- f h R Kr;
  let NewR := Z.lxor L x in
  let L := R in
  let R := NewR in
  ret (L, R).

Fixpoint Encrypt_loop (h : Host) (fuel : nat) (r : Z) (L R : Z) : M (Z * Z) :=
  match fuel with
  | O => undefined
  | S fuel' =>
      if r <? 8 then
        do LR <- Encrypt_round h r L R;
        Encrypt_loop h fuel' (r + 1) LR.1 LR.2
      else ret (L, R)
  end.

Definition Encrypt (h : Host) (Plain Cipher : list Z) : M (list Z) :=
  do L <- MakeH1 h Plain 0;
  do R <- MakeH1 h Plain 4;
  do k <- gets K89; let L := Z.lxor L k in
  do k <- gets K1011; let R := Z.lxor R k in
  let R := Z.lxor R L in
  do LR <- Encrypt_loop h 9 0 L R;
  let L := LR.1 in
  let R := LR.2 in
  let L := Z.lxor L R in
  do k <- gets K1213; let R := Z.lxor R k in
  do k <- gets K1415; let L := Z.lxor L k in
  do Cipher <- DissH1 h R Cipher 0;
  DissH1 h L Cipher 4.

Definition Decrypt_round (h : Host) (r : Z) (L R : Z) : M (Z * Z) :=
  do Kr <- read_K (Z.to_nat r);
  do x <- f h L Kr;
  let NewL := Z.lxor R x in
  let R := L in
  let L := NewL in
  ret (L, R).

Fixpoint Decrypt_loop (h : Host) (fuel : nat) (r : Z) (L R : Z) : M (Z * Z) :=
  match fuel with
  | O => undefined
  | S fuel' =>
      if r >=? 0 then
        do LR <- Decrypt_round h r L R;
        Decrypt_loop h fuel' (r - 1) LR.1 LR.2
      else ret (L, R)
  end.

Definition Decrypt (h : Host) (Cipher Plain : list Z) : M (list Z) :=
  do R <- MakeH1 h Cipher 0;
  do L <- MakeH1 h Cipher 4;
  do k <- gets K1213; let R := Z.lxor R k in
  do k <- gets K1415; let L := Z.lxor L k in
  let L := Z.lxor L R in
  do LR <- Decrypt_loop h 9 7 L R;
  let L := LR.1 in
  let R := LR.2 in
  let R := Z.lxor R L in
  do k <- gets K1011; let R := Z.lxor R k in
  do k <- gets K89; let L := Z.lxor L k in
  do Plain <- DissH1 h L Plain 0;
  DissH1 h R Plain 4.

(** The test harness of [main]: key 0123456789abcdef, all-zero block. *)
Definition main_key : list Z := [1; 35; 69; 103; 137; 171; 205; 239].
Definition main_plain : list Z := [0; 0; 0; 0; 0; 0; 0; 0].

Definition main_run (h : Host) : M (list Z * list Z * list Z) :=
  run SetKey h main_key;
  do k <- gets K;
  do cipher <- Encrypt h main_plain (replicate 8 0);
  do decrypted <- Decrypt h cipher (replicate 8 0);
  ret (k, cipher, decrypted).

(** ** Encrypt and Decrypt with the values of L and R recorded *)

(** The same statements as [Encrypt], in the same order, without the final
    [DissH1] calls; the result is the list of the pairs [(L, R)] the two
    variables hold: after the second [MakeH1], which first gives both a
    value, after each assignment outside the loop and after each pass of the
    loop (inside a pass, [NewR] is the next [R] and [L = R] copies a value
    already listed). *)
Fixpoint Encrypt_loop_states (h : Host) (fuel : nat) (r : Z) (L R : Z)
  : M (list (Z * Z)) :=
  match fuel with
  | O => undefined
  | S fuel' =>
      if r <? 8 then
        do LR <- Encrypt_round h r L R;
        do rest <- Encrypt_loop_states h fuel' (r + 1) LR.1 LR.2;
        ret (LR :: rest)
      else ret []
  end.

Definition Encrypt_states (h : Host) (Plain : list Z) : M (list (Z * Z)) :=
  do L <- MakeH1 h Plain 0;
  do R <- MakeH1 h Plain 4;
  let s0 := (L, R) in
  do k <- gets K89; let L := Z.lxor L k in
  let s1 := (L, R) in
  do k <- gets K1011; let R := Z.lxor R k in
  let s2 := (L, R) in
  let R := Z.lxor R L in
  let s3 := (L, R) in
  do rounds <- Encrypt_loop_states h 9 0 L R;
  let LR := List.last rounds (L, R) in
  let L := LR.1 in
  let R := LR.2 in
  let L := Z.lxor L R in
  let s4 := (L, R) in
  do k <- gets K1213; let R := Z.lxor R k in
  let s5 := (L, R) in
  do k <- gets K1415; let L := Z.lxor L k in
  let s6 := (L, R) in
  ret ([s0; s1; s2; s3] ++ rounds ++ [s4; s5; s6]).

Fixpoint Decrypt_loop_states (h : Host) (fuel : nat) (r : Z) (L R : Z)
  : M (list (Z * Z)) :=
  match fuel with
  | O => undefined
  | S fuel' =>
      if r >=? 0 then
        do LR <- Decrypt_round h r L R;
        do rest <- Decrypt_loop_states h fuel' (r - 1) LR.1 LR.2;
        ret (LR :: rest)
      else ret []
  end.

Definition Decrypt_states (h : Host) (Cipher : list Z) : M (list (Z * Z)) :=
  do R <- MakeH1 h Cipher 0;
  do L <- MakeH1 h Cipher 4;
  let s0 := (L, R) in
  do k <- gets K1213; let R := Z.lxor R k in
  let s1 := (L, R) in
  do k <- gets K1415; let L := Z.lxor L k in
  let s2 := (L, R) in
  let L := Z.lxor L R in
  let s3 := (L, R) in
  do rounds <- Decrypt_loop_states h 9 7 L R;
  let LR := List.last rounds (L, R) in
  let L := LR.1 in
  let R := LR.2 in
  let R := Z.lxor R L in
  let s4 := (L, R) in
  do k <- gets K1011; let R := Z.lxor R k in
  let s5 := (L, R) in
  do k <- gets K89; let L := Z.lxor L k in
  let s6 := (L, R) in
  ret ([s0; s1; s2; s3] ++ rounds ++ [s4; s5; s6]).

(** Both variables hold a value below [2^32]. *)
Definition below_2_32 (LR : Z * Z) : Prop :=
  0 <= LR.1 < 2 ^ 32 /\ 0 <= LR.2 < 2 ^ 32.

(** * Reference formulas of the specification *)

(** Rotation of an 8-bit value left by two bits, the direct formula. *)
Definition rot2 (v : Z) : Z := Z.land (Z.lor (Z.shiftl v 2) (Z.shiftr v 6)) 255.

Definition S0_spec (x1 x2 : Z) : Z := rot2 ((x1 + x2) mod 256).
Definition S1_spec (x1 x2 : Z) : Z := rot2 ((x1 + x2 + 1) mod 256).

(** The table of the direct formula, and the state of [Rot2] once the table
    is filled. *)
Definition Rot2_table : list Z := map (fun i => rot2 (Z.of_nat i)) (seq 0 256).

Definition Rot2_done (g : Globals) : Globals := set_Rot2 0 Rot2_table g.

(** The states of the statics of [Rot2] the functions are run from: a table
    of 256 entries that holds the rotation once [First] has been cleared. *)
Definition Rot2_state_ok (g : Globals) : Prop :=
  length (Rot2_RetVal g) = 256%nat /\
  (Rot2_First g = 0 -> Rot2_RetVal g = Rot2_table).

(** ** The round function and FK on bytes (sections 4.3 and 4.4) *)

Definition f_bytes_of (a0 a1 a2 a3 b0 b1 : Z) : Z * Z * Z * Z :=
  let t1 := Z.lxor (Z.lxor a1 b0) a0 in
  let t2 := Z.lxor (Z.lxor a2 b1) a3 in
  let t1' := S1_spec t1 t2 in
  let t2' := S0_spec t2 t1' in
  (S0_spec a0 t1', t1', t2', S1_spec a3 t2').

Definition FK_bytes_of (a0 a1 a2 a3 b0 b1 b2 b3 : Z) : Z * Z * Z * Z :=
  let t1 := Z.lxor a1 a0 in
  let t2 := Z.lxor a2 a3 in
  let t1' := S1_spec t1 (Z.lxor t2 b0) in
  let t2' := S0_spec t2 (Z.lxor t1' b1) in
  (S0_spec a0 (Z.lxor t1' b2), t1', t2', S1_spec a3 (Z.lxor t2' b3)).

(** ** Packing by significance (section 4.1) *)

(** [(b0<<24)|(b1<<16)|(b2<<8)|b3], and the byte of significance [i]. *)
Definition bytes_to_halfword (b0 b1 b2 b3 : Z) : Z :=
  Z.lor (Z.lor (Z.lor (Z.shiftl b0 24) (Z.shiftl b1 16)) (Z.shiftl b2 8)) b3.

Definition bytes_to_quarterword (b0 b1 : Z) : Z := Z.lor (Z.shiftl b0 8) b1.

Definition byte_of (v : Z) (i : Z) : Z := Z.land (Z.shiftr v (8 * i)) 255.

(** The round function with byte 0 the most significant byte, as the
    specification words it, and with byte 0 the least significant byte. *)
Definition f_msb_first (A B : Z) : Z :=
  match f_bytes_of (byte_of A 3) (byte_of A 2) (byte_of A 1) (byte_of A 0)
                   (byte_of B 1) (byte_of B 0) with
  | (r0, r1, r2, r3) => bytes_to_halfword r0 r1 r2 r3
  end.

Definition f_lsb_first (A B : Z) : Z :=
  match f_bytes_of (byte_of A 0) (byte_of A 1) (byte_of A 2) (byte_of A 3)
                   (byte_of B 0) (byte_of B 1) with
  | (r0, r1, r2, r3) => bytes_to_halfword r3 r2 r1 r0
  end.

(** ** Words as the host lays them out *)

(** The halfword whose first four bytes of storage are [bs] and whose other
    bytes are zero, and the [i]-th byte of the storage of a halfword;
    likewise for quarterwords. *)
Definition pack_H (h : Host) (bs : list Z) : Z :=
  load_All h (bs ++ replicate (sizeof_long h - length bs) 0).

Definition halfword_byte (h : Host) (H : Z) (i : nat) : Z :=
  Byte (store_All h (sizeof_long h) H) i.

Definition unpack_H (h : Host) (H : Z) : list Z :=
  [halfword_byte h H 0; halfword_byte h H 1; halfword_byte h H 2; halfword_byte h H 3].

Definition pack_Q (h : Host) (bs : list Z) : Z :=
  load_All h (bs ++ replicate (sizeof_int h - length bs) 0).

Definition quarterword_byte (h : Host) (Q : Z) (i : nat) : Z :=
  Byte (store_All h (sizeof_int h) Q) i.

Definition unpack_Q (h : Host) (Q : Z) : list Z :=
  [quarterword_byte h Q 0; quarterword_byte h Q 1].

(** A halfword in the form the cipher produces: four bytes, zero padding. *)
Definition is_halfword (h : Host) (v : Z) : Prop :=
  exists bs, length bs = 4%nat /\ Forall is_byte bs /\ v = pack_H h bs.

Definition is_quarterword (h : Host) (v : Z) : Prop :=
  exists bs, length bs = 2%nat /\ Forall is_byte bs /\ v = pack_Q h bs.

(** The storage of a halfword union: [sizeof(long)] bytes. *)
Definition canon (h : Host) (l : list Z) : Prop :=
  length l = sizeof_long h /\ Forall is_byte l.

(** The output bytes as the list a union stores. *)
Definition f_bytes (a0 a1 a2 a3 b0 b1 : Z) : list Z :=
  match f_bytes_of a0 a1 a2 a3 b0 b1 with
  | (r0, r1, r2, r3) => [r0; r1; r2; r3]
  end.

Definition FK_bytes (a0 a1 a2 a3 b0 b1 b2 b3 : Z) : list Z :=
  match FK_bytes_of a0 a1 a2 a3 b0 b1 b2 b3 with
  | (r0, r1, r2, r3) => [r0; r1; r2; r3]
  end.

(** The same on words, the bytes taken and put back in storage order. *)
Definition f_host (h : Host) (A B : Z) : Z :=
  pack_H h (f_bytes (halfword_byte h A 0) (halfword_byte h A 1)
                    (halfword_byte h A 2) (halfword_byte h A 3)
                    (quarterword_byte h B 0) (quarterword_byte h B 1)).

Definition FK_host (h : Host) (A B : Z) : Z :=
  pack_H h (FK_bytes (halfword_byte h A 0) (halfword_byte h A 1)
                     (halfword_byte h A 2) (halfword_byte h A 3)
                     (halfword_byte h B 0) (halfword_byte h B 1)
                     (halfword_byte h B 2) (halfword_byte h B 3)).

(** ** The key schedule as a recurrence (section 4.5) *)

Record KeySchedule : Type := mkKeySchedule {
  ks_K : list Z;
  ks_K89 : Z;
  ks_K1011 : Z;
  ks_K1213 : Z;
  ks_K1415 : Z
}.

(** The schedule the process-wide variables hold. *)
Definition schedule_of (g : Globals) : KeySchedule :=
  mkKeySchedule (K g) (K89 g) (K1011 g) (K1213 g) (K1415 g).

Definition subkey (Ks : list Z) (i : nat) : Z := default 0 (Ks !! i).

(** [n] steps of the recurrence, each emitting two quarterwords. *)
Fixpoint schedule_rounds (h : Host) (n : nat) (A B D : Z) : list Z :=
  match n with
  | O => []
  | S n' =>
      let NewB := FK_host h A (Z.lxor B D) in
      pack_Q h [halfword_byte h NewB 0; halfword_byte h NewB 1]
      :: pack_Q h [halfword_byte h NewB 2; halfword_byte h NewB 3]
      :: schedule_rounds h n' B NewB A
  end.

(** The halfword from two quarterwords: the 2+2 bytes of [q0] then [q1]. *)
Definition halfword_from_two_quarterwords (h : Host) (q0 q1 : Z) : Z :=
  pack_H h (unpack_Q h q0 ++ unpack_Q h q1).

Definition derive_schedule (h : Host) (key : list Z) : KeySchedule :=
  let A := pack_H h (take 4 key) in
  let B := pack_H h (take 4 (drop 4 key)) in
  let Ks := schedule_rounds h 8 A B 0 in
  mkKeySchedule Ks
    (halfword_from_two_quarterwords h (subkey Ks 8) (subkey Ks 9))
    (halfword_from_two_quarterwords h (subkey Ks 10) (subkey Ks 11))
    (halfword_from_two_quarterwords h (subkey Ks 12) (subkey Ks 13))
    (halfword_from_two_quarterwords h (subkey Ks 14) (subkey Ks 15)).

(** A schedule of sixteen subkeys whose whitening values are halfwords. *)
Definition schedule_ok (h : Host) (ks : KeySchedule) : Prop :=
  length (ks_K ks) = 16%nat /\
  is_halfword h (ks_K89 ks) /\ is_halfword h (ks_K1011 ks) /\
  is_halfword h (ks_K1213 ks) /\ is_halfword h (ks_K1415 ks).

(** ** The Feistel engine as a composition of rounds (sections 4.6, 4.7) *)

Definition encrypt_round (h : Host) (LR : Z * Z) (k : Z) : Z * Z :=
  (LR.2, Z.lxor LR.1 (f_host h LR.2 k)).

Definition decrypt_round (h : Host) (LR : Z * Z) (k : Z) : Z * Z :=
  (Z.lxor LR.2 (f_host h LR.1 k), LR.1).

Definition encrypt_spec (h : Host) (ks : KeySchedule) (block : list Z) : list Z :=
  let L := pack_H h (take 4 block) in
  let R := pack_H h (take 4 (drop 4 block)) in
  let L := Z.lxor L (ks_K89 ks) in
  let R := Z.lxor R (ks_K1011 ks) in
  let R := Z.lxor R L in
  let LR := fold_left (encrypt_round h) (take 8 (ks_K ks)) (L, R) in
  let L := Z.lxor LR.1 LR.2 in
  let R := Z.lxor LR.2 (ks_K1213 ks) in
  let L := Z.lxor L (ks_K1415 ks) in
  unpack_H h R ++ unpack_H h L.

Definition decrypt_spec (h : Host) (ks : KeySchedule) (block : list Z) : list Z :=
  let R := pack_H h (take 4 block) in
  let L := pack_H h (take 4 (drop 4 block)) in
  let R := Z.lxor R (ks_K1213 ks) in
  let L := Z.lxor L (ks_K1415 ks) in
  let L := Z.lxor L R in
  let LR := fold_left (decrypt_round h) (rev (take 8 (ks_K ks))) (L, R) in
  let R := Z.lxor LR.2 LR.1 in
  let R := Z.lxor R (ks_K1011 ks) in
  let L := Z.lxor LR.1 (ks_K89 ks) in
  unpack_H h L ++ unpack_H h R.

(** ** The cipher on bytes alone *)

(** The same computation with every halfword kept as its four bytes and
    every quarterword as its two bytes, so that no host appears in it. *)
Definition xor_bytes (a b : list Z) : list Z := zip_with Z.lxor a b.

Definition f_on_bytes (a b : list Z) : list Z :=
  f_bytes (Byte a 0) (Byte a 1) (Byte a 2) (Byte a 3) (Byte b 0) (Byte b 1).

Definition FK_on_bytes (a b : list Z) : list Z :=
  FK_bytes (Byte a 0) (Byte a 1) (Byte a 2) (Byte a 3)
           (Byte b 0) (Byte b 1) (Byte b 2) (Byte b 3).

Fixpoint schedule_bytes (n : nat) (A B D : list Z) : list (list Z) :=
  match n with
  | O => []
  | S n' =>
      let NewB := FK_on_bytes A (xor_bytes B D) in
      [Byte NewB 0; Byte NewB 1] :: [Byte NewB 2; Byte NewB 3]
      :: schedule_bytes n' B NewB A
  end.

Definition subkey_bytes (Ks : list (list Z)) (i : nat) : list Z :=
  default [0; 0] (Ks !! i).

Record KeyScheduleBytes : Type := mkKeyScheduleBytes {
  kb_K : list (list Z);
  kb_K89 : list Z;
  kb_K1011 : list Z;
  kb_K1213 : list Z;
  kb_K1415 : list Z
}.

Definition derive_schedule_bytes (key : list Z) : KeyScheduleBytes :=
  let Ks := schedule_bytes 8 (take 4 key) (take 4 (drop 4 key)) [0; 0; 0; 0] in
  mkKeyScheduleBytes Ks
    (subkey_bytes Ks 8 ++ subkey_bytes Ks 9)
    (subkey_bytes Ks 10 ++ subkey_bytes Ks 11)
    (subkey_bytes Ks 12 ++ subkey_bytes Ks 13)
    (subkey_bytes Ks 14 ++ subkey_bytes Ks 15).

Definition encrypt_round_bytes (LR : list Z * list Z) (k : list Z)
  : list Z * list Z :=
  (LR.2, xor_bytes LR.1 (f_on_bytes LR.2 k)).

Definition decrypt_round_bytes (LR : list Z * list Z) (k : list Z)
  : list Z * list Z :=
  (xor_bytes LR.2 (f_on_bytes LR.1 k), LR.1).

Definition encrypt_bytes (ks : KeyScheduleBytes) (block : list Z) : list Z :=
  let L := take 4 block in
  let R := take 4 (drop 4 block) in
  let L := xor_bytes L (kb_K89 ks) in
  let R := xor_bytes R (kb_K1011 ks) in
  let R := xor_bytes R L in
  let LR := fold_left encrypt_round_bytes (take 8 (kb_K ks)) (L, R) in
  let L := xor_bytes LR.1 LR.2 in
  let R := xor_bytes LR.2 (kb_K1213 ks) in
  let L := xor_bytes L (kb_K1415 ks) in
  R ++ L.

Definition decrypt_bytes (ks : KeyScheduleBytes) (block : list Z) : list Z :=
  let R := take 4 block in
  let L := take 4 (drop 4 block) in
  let R := xor_bytes R (kb_K1213 ks) in
  let L := xor_bytes L (kb_K1415 ks) in
  let L := xor_bytes L R in
  let LR := fold_left decrypt_round_bytes (rev (take 8 (kb_K ks))) (L, R) in
  let R := xor_bytes LR.2 LR.1 in
  let R := xor_bytes R (kb_K1011 ks) in
  let L := xor_bytes LR.1 (kb_K89 ks) in
  L ++ R.

(** Four bytes, two bytes. *)
Definition bytes4 (l : list Z) : Prop := length l = 4%nat /\ Forall is_byte l.
Definition bytes2 (l : list Z) : Prop := length l = 2%nat /\ Forall is_byte l.

(** The host's image of a byte-level schedule. *)
Definition schedule_of_bytes (h : Host) (kb : KeyScheduleBytes) : KeySchedule :=
  mkKeySchedule (map (pack_Q h) (kb_K kb))
    (pack_H h (kb_K89 kb)) (pack_H h (kb_K1011 kb))
    (pack_H h (kb_K1213 kb)) (pack_H h (kb_K1415 kb)).

(** FK with byte 0 the least significant byte. *)
Definition FK_lsb_first (A B : Z) : Z :=
  match FK_bytes_of (byte_of A 0) (byte_of A 1) (byte_of A 2) (byte_of A 3)
                    (byte_of B 0) (byte_of B 1) (byte_of B 2) (byte_of B 3) with
  | (r0, r1, r2, r3) => bytes_to_halfword r3 r2 r1 r0
  end.

(** Both variables hold halfwords in the form the cipher produces. *)
Definition halfword_pair (h : Host) (LR : Z * Z) : Prop :=
  is_halfword h LR.1 /\ is_halfword h LR.2.

(** * Properties *)

(** ** Bytes *)

Lemma to_ByteType_is_byte (v : Z) : is_byte (to_ByteType v).
Proof. unfold is_byte, to_ByteType. apply Z.mod_pos_bound. lia. Qed.

Lemma to_ByteType_id (b : Z) : is_byte b -> to_ByteType b = b.
Proof. unfold is_byte, to_ByteType. intros H. apply Z.mod_small. lia. Qed.

Lemma land_255 (v : Z) : Z.land v 255 = v mod 256.
Proof. change 255 with (Z.ones 8). rewrite Z.land_ones by lia. reflexivity. Qed.

Lemma lxor_bound (n a b : Z) :
  0 <= n -> 0 <= a < 2 ^ n -> 0 <= b < 2 ^ n -> 0 <= Z.lxor a b < 2 ^ n.
Proof.
  intros Hn Ha Hb.
  assert (Hnn : 0 <= Z.lxor a b) by (apply Z.lxor_nonneg; lia).
  split; [exact Hnn|].
  destruct (Z.eq_dec (Z.lxor a b) 0) as [E|E].
  - rewrite E. apply Z.pow_pos_nonneg; lia.
  - assert (Hpos : 0 < n).
    { destruct (Z.eq_dec n 0) as [->|]; [|lia]. exfalso. apply E.
      replace a with 0 by (simpl in Ha; lia). replace b with 0 by (simpl in Hb; lia).
      reflexivity. }
    apply Z.log2_lt_pow2; [lia|].
    eapply Z.le_lt_trans; [apply Z.log2_lxor; lia|].
    apply Z.max_lub_lt.
    + destruct (Z.eq_dec a 0) as [->|]; [simpl; lia|]. apply Z.log2_lt_pow2; lia.
    + destruct (Z.eq_dec b 0) as [->|]; [simpl; lia|]. apply Z.log2_lt_pow2; lia.
Qed.

Lemma lxor_is_byte (a b : Z) : is_byte a -> is_byte b -> is_byte (Z.lxor a b).
Proof. unfold is_byte. intros. apply (lxor_bound 8); lia. Qed.

Lemma lxor_mod_256 (u w : Z) :
  Z.lxor u w mod 256 = Z.lxor (u mod 256) (w mod 256).
Proof.
  rewrite <- !land_255. apply Z.bits_inj'. intros n Hn.
  rewrite !Z.land_spec, !Z.lxor_spec, !Z.land_spec.
  destruct (Z.testbit 255 n), (Z.testbit u n), (Z.testbit w n); reflexivity.
Qed.

Lemma lxor_div_256 (u w : Z) :
  Z.lxor u w / 256 = Z.lxor (u / 256) (w / 256).
Proof.
  change 256 with (2 ^ 8). rewrite <- !Z.shiftr_div_pow2 by lia.
  apply Z.shiftr_lxor.
Qed.

Lemma byte_cons_mod (b x : Z) : is_byte b -> (b + 256 * x) mod 256 = b.
Proof. unfold is_byte. intros Hb. symmetry. apply (Z.mod_unique _ _ x); lia. Qed.

Lemma byte_cons_div (b x : Z) : is_byte b -> (b + 256 * x) / 256 = x.
Proof. unfold is_byte. intros Hb. symmetry. apply (Z.div_unique _ _ x b); lia. Qed.

(** ** Object representations *)

Lemma length_encode_le (n : nat) (v : Z) : length (encode_le n v) = n.
Proof. revert v. induction n as [|n IH]; intros v; simpl; [reflexivity|]. by rewrite IH. Qed.

Lemma encode_le_bytes (n : nat) (v : Z) : Forall is_byte (encode_le n v).
Proof.
  revert v. induction n as [|n IH]; intros v; simpl; constructor.
  - apply to_ByteType_is_byte.
  - apply IH.
Qed.

Lemma encode_decode_le (l : list Z) :
  Forall is_byte l -> encode_le (length l) (decode_le l) = l.
Proof.
  induction 1 as [|b l Hb Hl IH]; simpl; [reflexivity|].
  rewrite byte_cons_mod, byte_cons_div by assumption.
  by rewrite IH.
Qed.

Lemma decode_le_bound (l : list Z) :
  Forall is_byte l -> 0 <= decode_le l < 2 ^ (8 * Z.of_nat (length l)).
Proof.
  induction 1 as [|b l Hb Hl IH]; [simpl; lia|].
  unfold is_byte in Hb.
  replace (8 * Z.of_nat (length (b :: l))) with (8 + 8 * Z.of_nat (length l))
    by (simpl length; lia).
  rewrite Z.pow_add_r by lia. change (2 ^ 8) with 256.
  cbn [decode_le]. nia.
Qed.

Lemma decode_encode_le (n : nat) (v : Z) :
  decode_le (encode_le n v) = v mod 2 ^ (8 * Z.of_nat n).
Proof.
  revert v. induction n as [|n IH]; intros v.
  - simpl. by rewrite Z.mod_1_r.
  - cbn [encode_le decode_le]. rewrite IH.
    replace (8 * Z.of_nat (S n)) with (8 + 8 * Z.of_nat n) by lia.
    rewrite Z.pow_add_r by lia. change (2 ^ 8) with 256.
    rewrite Z.rem_mul_r by lia. reflexivity.
Qed.

Lemma decode_le_lxor (l1 l2 : list Z) :
  length l1 = length l2 -> Forall is_byte l1 -> Forall is_byte l2 ->
  Z.lxor (decode_le l1) (decode_le l2) = decode_le (zip_with Z.lxor l1 l2).
Proof.
  intros Hlen H1. revert l2 Hlen.
  induction H1 as [|b l1 Hb Hl1 IH]; intros [|c l2] Hlen H2; try discriminate.
  - reflexivity.
  - inversion H2 as [|? ? Hc Hl2]; subst. simpl in Hlen.
    cbn [decode_le zip_with]. rewrite <- IH by (auto; lia).
    set (x := decode_le l1). set (y := decode_le l2).
    rewrite (Z.div_mod (Z.lxor (b + 256 * x) (c + 256 * y)) 256) by lia.
    rewrite lxor_mod_256, lxor_div_256.
    rewrite !byte_cons_mod, !byte_cons_div by assumption.
    lia.
Qed.

Lemma length_store_All (h : Host) (n : nat) (v : Z) : length (store_All h n v) = n.
Proof.
  unfold store_All. destruct (endian h); [|rewrite length_rev]; apply length_encode_le.
Qed.

Lemma store_All_bytes (h : Host) (n : nat) (v : Z) : Forall is_byte (store_All h n v).
Proof.
  unfold store_All. destruct (endian h).
  - apply encode_le_bytes.
  - apply Forall_rev, encode_le_bytes.
Qed.

Lemma store_load_All (h : Host) (l : list Z) :
  Forall is_byte l -> store_All h (length l) (load_All h l) = l.
Proof.
  intros Hl. unfold store_All, load_All. destruct (endian h).
  - by apply encode_decode_le.
  - rewrite <- (length_rev l), encode_decode_le by by apply Forall_rev.
    apply rev_involutive.
Qed.

Lemma load_store_All (h : Host) (n : nat) (v : Z) :
  load_All h (store_All h n v) = v mod 2 ^ (8 * Z.of_nat n).
Proof.
  unfold store_All, load_All. destruct (endian h).
  - apply decode_encode_le.
  - rewrite rev_involutive. apply decode_encode_le.
Qed.

Lemma load_All_bound (h : Host) (l : list Z) :
  Forall is_byte l -> 0 <= load_All h l < 2 ^ (8 * Z.of_nat (length l)).
Proof.
  intros Hl. unfold load_All. destruct (endian h).
  - by apply decode_le_bound.
  - rewrite <- (length_rev l). by apply decode_le_bound, Forall_rev.
Qed.

Lemma load_All_lxor (h : Host) (l1 l2 : list Z) :
  length l1 = length l2 -> Forall is_byte l1 -> Forall is_byte l2 ->
  Z.lxor (load_All h l1) (load_All h l2) = load_All h (zip_with Z.lxor l1 l2).
Proof.
  intros Hlen H1 H2. unfold load_All. destruct (endian h).
  - by apply decode_le_lxor.
  - rewrite decode_le_lxor by (rewrite ?length_rev; auto using Forall_rev).
    f_equal. clear H1 H2. revert l2 Hlen.
    induction l1 as [|b l1 IH]; intros [|c l2] Hlen; try discriminate; [reflexivity|].
    simpl in Hlen. cbn [rev zip_with].
    rewrite zip_with_app by (rewrite !length_rev; lia).
    rewrite IH by lia. reflexivity.
Qed.

Lemma Byte_is_byte (u : list Z) (i : nat) : Forall is_byte u -> is_byte (Byte u i).
Proof.
  intros Hu. unfold Byte. destruct (u !! i) as [b|] eqn:E; simpl.
  - eapply Forall_lookup_1; eauto.
  - unfold is_byte; lia.
Qed.

Create HintDb feal_bytes.
#[local] Hint Resolve to_ByteType_is_byte lxor_is_byte Byte_is_byte
  store_All_bytes : feal_bytes.

(** A list given by its elements holds bytes when each element is one. *)
Ltac bytes_of_list :=
  repeat apply Forall_cons_2; try apply Forall_nil_2; auto with feal_bytes.

(** ** The table of Rot2 *)

Lemma byte_cases (P : Z -> bool) :
  forallb P (map Z.of_nat (seq 0 256)) = true ->
  forall i, is_byte i -> P i = true.
Proof.
  intros HP i Hi. rewrite forallb_forall in HP. apply HP.
  apply in_map_iff. exists (Z.to_nat i). unfold is_byte in Hi. split; [lia|].
  apply in_seq. lia.
Qed.

Lemma rot2_is_byte (v : Z) : is_byte (rot2 v).
Proof. unfold rot2. rewrite land_255. apply to_ByteType_is_byte. Qed.

#[local] Hint Resolve rot2_is_byte : feal_bytes.

Lemma Rot2_fill_entry (i : Z) :
  is_byte i -> to_ByteType (4 * i mod 256 + i / 64) = rot2 i.
Proof.
  intros Hi. apply Z.eqb_eq.
  apply (byte_cases (fun i => to_ByteType (4 * i mod 256 + i / 64) =? rot2 i)); [|exact Hi].
  vm_compute. reflexivity.
Qed.

Lemma Rot2_fill_wrap (i : Z) :
  is_byte i -> 4 * i mod 256 + 4 > 255 ->
  4 * (i + 1) mod 256 = 0 /\ (i + 1) / 64 = i / 64 + 1.
Proof.
  intros Hi Hw.
  pose proof (byte_cases (fun i => implb (4 * i mod 256 + 4 >? 255)
    ((4 * (i + 1) mod 256 =? 0) && ((i + 1) / 64 =? i / 64 + 1))) eq_refl i Hi) as H.
  cbv beta in H. apply Z.gtb_gt in Hw. rewrite Hw in H. simpl in H.
  apply andb_true_iff in H as [H1 H2]. split; by apply Z.eqb_eq.
Qed.

Lemma Rot2_fill_nowrap (i : Z) :
  is_byte i -> ~ 4 * i mod 256 + 4 > 255 ->
  4 * (i + 1) mod 256 = 4 * i mod 256 + 4 /\ (i + 1) / 64 = i / 64.
Proof.
  intros Hi Hw.
  pose proof (byte_cases (fun i => implb (negb (4 * i mod 256 + 4 >? 255))
    ((4 * (i + 1) mod 256 =? 4 * i mod 256 + 4) && ((i + 1) / 64 =? i / 64))) eq_refl i Hi) as H.
  cbv beta in H. destruct (4 * i mod 256 + 4 >? 255) eqn:E; [apply Z.gtb_gt in E; lia|].
  simpl in H. apply andb_true_iff in H as [H1 H2]. split; by apply Z.eqb_eq.
Qed.

Lemma Rot2_table_lookup (i : nat) :
  (i < 256)%nat -> Rot2_table !! i = Some (rot2 (Z.of_nat i)).
Proof.
  intros Hi. unfold Rot2_table. rewrite list_lookup_fmap.
  rewrite lookup_seq_lt by lia. reflexivity.
Qed.

Lemma length_Rot2_table : length Rot2_table = 256%nat.
Proof. reflexivity. Qed.

(** The loop, started at index [i] with the counters the previous
    iterations left, overwrites the entries from [i] on with the rotation. *)
Lemma Rot2_fill_spec (n i : nat) (tbl : list Z) :
  length tbl = 256%nat -> (n + i = 256)%nat ->
  Rot2_fill (S n) (Z.of_nat i) (4 * Z.of_nat i mod 256) (Z.of_nat i / 64) tbl
  = Some (take i tbl ++ drop i Rot2_table).
Proof.
  revert i tbl. induction n as [|n IH]; intros i tbl Hlen Hi.
  - assert (i = 256%nat) as -> by lia.
    cbn [Rot2_fill]. change (Z.of_nat 256 <? 256) with false. cbv iota.
    rewrite take_ge by lia. rewrite drop_ge by (rewrite length_Rot2_table; lia).
    by rewrite app_nil_r.
  - assert (Hb : is_byte (Z.of_nat i)) by (unfold is_byte; lia).
    assert (Hnext : take i tbl ++ drop i Rot2_table
                    = take (S i) (<[i := rot2 (Z.of_nat i)]> tbl) ++ drop (S i) Rot2_table).
    { rewrite (take_S_r _ _ (rot2 (Z.of_nat i)))
        by (apply list_lookup_insert_eq; lia).
      rewrite take_insert_ge by lia.
      rewrite (drop_S Rot2_table (rot2 (Z.of_nat i)) i) by (apply Rot2_table_lookup; lia).
      by rewrite <- app_assoc. }
    rewrite Hnext.
    change (Rot2_fill (S (S n)) ?a ?b ?c ?d) with
      (if a <? 256 then
         if b + 4 >? 255
         then Rot2_fill (S n) (a + 1) 0 (c + 1) (<[Z.to_nat a := to_ByteType (b + c)]> d)
         else Rot2_fill (S n) (a + 1) (b + 4) c (<[Z.to_nat a := to_ByteType (b + c)]> d)
       else Some d).
    destruct (Z.ltb_spec (Z.of_nat i) 256) as [_|]; [|lia].
    rewrite Rot2_fill_entry by assumption. rewrite Nat2Z.id.
    replace (Z.of_nat i + 1) with (Z.of_nat (S i)) by lia.
    destruct (4 * Z.of_nat i mod 256 + 4 >? 255) eqn:E.
    + apply Z.gtb_gt in E. destruct (Rot2_fill_wrap _ Hb E) as [E1 E2].
      replace (Z.of_nat i + 1) with (Z.of_nat (S i)) in E1, E2 by lia.
      rewrite <- E1, <- E2. apply IH; [by rewrite length_insert|lia].
    + assert (E' : ~ 4 * Z.of_nat i mod 256 + 4 > 255)
        by (intros G; apply Z.gtb_gt in G; congruence).
      destruct (Rot2_fill_nowrap _ Hb E') as [E1 E2].
      replace (Z.of_nat i + 1) with (Z.of_nat (S i)) in E1, E2 by lia.
      rewrite <- E1, <- E2. apply IH; [by rewrite length_insert|lia].
Qed.

Lemma Rot2_fill_table (tbl : list Z) :
  length tbl = 256%nat -> Rot2_fill 257 0 0 0 tbl = Some Rot2_table.
Proof.
  intros Hlen. exact (Rot2_fill_spec 256 0 tbl Hlen eq_refl).
Qed.

(** ** Rot2, S0 and S1 return the direct formula *)

Lemma Rot2_done_ok (g : Globals) : Rot2_state_ok (Rot2_done g).
Proof. split; reflexivity. Qed.

Lemma Rot2_done_idem (g : Globals) : Rot2_done (Rot2_done g) = Rot2_done g.
Proof. reflexivity. Qed.

Lemma Rot2_initial_ok : Rot2_state_ok initial_globals.
Proof. split; [reflexivity|]. simpl. discriminate. Qed.

Section Rot2_static.

(** A call from a state [g] in which the statics of [Rot2] are usable. *)
Variable g : Globals.
Hypothesis Hg : Rot2_state_ok g.

Lemma Rot2_run (X : Z) :
  is_byte X -> Rot2 X g = Some (rot2 X, Rot2_done g).
Proof.
  destruct Hg as [Hlen Htbl]. intros HX. unfold is_byte in HX.
  assert (Hlk : Rot2_table !! Z.to_nat X = Some (rot2 X)).
  { rewrite Rot2_table_lookup by lia. by rewrite Z2Nat.id by lia. }
  unfold Rot2, bind, gets, deref.
  destruct (Z.eqb_spec (Rot2_First g) 0) as [E|E].
  - assert (Hdone : Rot2_done g = g).
    { specialize (Htbl E). clear Hg. destruct g; simpl in *; subst.
      reflexivity. }
    cbn [ret]. rewrite (Htbl E), Hlk. unfold ret. by rewrite Hdone.
  - rewrite Rot2_fill_table by assumption.
    unfold modify. cbn [Rot2_RetVal set_Rot2]. rewrite Hlk. reflexivity.
Qed.

Lemma S0_run (X1 X2 : Z) : S0 X1 X2 g = Some (S0_spec X1 X2, Rot2_done g).
Proof.
  unfold S0, S0_spec. rewrite land_255.
  rewrite to_ByteType_id by apply to_ByteType_is_byte.
  apply Rot2_run, to_ByteType_is_byte.
Qed.

Lemma S1_run (X1 X2 : Z) : S1 X1 X2 g = Some (S1_spec X1 X2, Rot2_done g).
Proof.
  unfold S1, S1_spec. rewrite land_255.
  rewrite to_ByteType_id by apply to_ByteType_is_byte.
  apply Rot2_run, to_ByteType_is_byte.
Qed.

End Rot2_static.

Lemma S0_spec_is_byte (x1 x2 : Z) : is_byte (S0_spec x1 x2).
Proof. apply rot2_is_byte. Qed.

Lemma S1_spec_is_byte (x1 x2 : Z) : is_byte (S1_spec x1 x2).
Proof. apply rot2_is_byte. Qed.

#[local] Hint Resolve S0_spec_is_byte S1_spec_is_byte : feal_bytes.

(** ** Unions *)

Lemma fill_0123 (h : Host) (b0 b1 b2 b3 : Z) :
  <[3%nat := b3]> (<[2%nat := b2]> (<[1%nat := b1]> (<[0%nat := b0]>
    (zero_init (sizeof_long h)))))
  = [b0; b1; b2; b3] ++ replicate (sizeof_long h - 4) 0.
Proof. destruct h as [e []]; reflexivity. Qed.

Lemma fill_1203 (h : Host) (b0 b1 b2 b3 : Z) :
  <[3%nat := b3]> (<[0%nat := b0]> (<[2%nat := b2]> (<[1%nat := b1]>
    (zero_init (sizeof_long h)))))
  = [b0; b1; b2; b3] ++ replicate (sizeof_long h - 4) 0.
Proof. destruct h as [e []]; reflexivity. Qed.

Lemma halfword_byte_is_byte (h : Host) (H : Z) (i : nat) : is_byte (halfword_byte h H i).
Proof. apply Byte_is_byte, store_All_bytes. Qed.

Lemma quarterword_byte_is_byte (h : Host) (Q : Z) (i : nat) :
  is_byte (quarterword_byte h Q i).
Proof. apply Byte_is_byte, store_All_bytes. Qed.

#[local] Hint Resolve halfword_byte_is_byte quarterword_byte_is_byte : feal_bytes.

Lemma f_bytes_ok (a0 a1 a2 a3 b0 b1 : Z) :
  length (f_bytes a0 a1 a2 a3 b0 b1) = 4%nat /\ Forall is_byte (f_bytes a0 a1 a2 a3 b0 b1).
Proof.
  split; [reflexivity|]. unfold f_bytes, f_bytes_of.
  cbv zeta. bytes_of_list.
Qed.

Lemma FK_bytes_ok (a0 a1 a2 a3 b0 b1 b2 b3 : Z) :
  length (FK_bytes a0 a1 a2 a3 b0 b1 b2 b3) = 4%nat /\
  Forall is_byte (FK_bytes a0 a1 a2 a3 b0 b1 b2 b3).
Proof.
  split; [reflexivity|]. unfold FK_bytes, FK_bytes_of.
  cbv zeta. bytes_of_list.
Qed.

(** ** f and FK compute the byte formulas *)

Lemma f_run (h : Host) (g : Globals) (AA BB : Z) :
  Rot2_state_ok g -> f h AA BB g = Some (f_host h AA BB, Rot2_done g).
Proof.
  intros Hg. pose proof (Rot2_done_ok g) as Hd.
  unfold f, bind.
  rewrite !to_ByteType_id by auto with feal_bytes.
  rewrite S1_run by assumption.
  rewrite S0_run by assumption.
  rewrite S0_run by assumption.
  rewrite S1_run by assumption.
  rewrite fill_1203. reflexivity.
Qed.

Lemma FK_run (h : Host) (g : Globals) (AA BB : Z) :
  Rot2_state_ok g -> FK h AA BB g = Some (FK_host h AA BB, Rot2_done g).
Proof.
  intros Hg. pose proof (Rot2_done_ok g) as Hd.
  unfold FK, bind.
  rewrite !to_ByteType_id by auto with feal_bytes.
  rewrite S1_run by assumption.
  rewrite S0_run by assumption.
  rewrite S0_run by assumption.
  rewrite S1_run by assumption.
  rewrite fill_1203. reflexivity.
Qed.

(** ** MakeH1, DissH1, DissQ1, MakeH2 *)

Lemma MakeH1_run (h : Host) (g : Globals) (B : list Z) (off : nat) (b0 b1 b2 b3 : Z) :
  B !! off = Some b0 -> B !! (off + 1)%nat = Some b1 ->
  B !! (off + 2)%nat = Some b2 -> B !! (off + 3)%nat = Some b3 ->
  MakeH1 h B off g = Some (pack_H h [b0; b1; b2; b3], g).
Proof.
  intros H0 H1 H2 H3. unfold MakeH1, bind, deref.
  rewrite H0, H1, H2, H3. cbn [ret]. rewrite fill_0123. reflexivity.
Qed.

Lemma assign_run (g : Globals) (obj : list Z) (i : nat) (v : Z) :
  (i < length obj)%nat -> assign obj i v g = Some (<[i := v]> obj, g).
Proof. intros Hi. unfold assign. by rewrite decide_True by assumption. Qed.

Lemma DissH1_run (h : Host) (g : Globals) (H : Z) (D : list Z) (off : nat) :
  (off + 4 <= length D)%nat ->
  DissH1 h H D off g
  = Some (<[(off + 3)%nat := halfword_byte h H 3]>
            (<[(off + 2)%nat := halfword_byte h H 2]>
               (<[(off + 1)%nat := halfword_byte h H 1]>
                  (<[off := halfword_byte h H 0]> D))), g).
Proof.
  intros Hlen. unfold DissH1, bind.
  rewrite assign_run by lia.
  rewrite assign_run by (rewrite length_insert; lia).
  rewrite assign_run by (rewrite !length_insert; lia).
  rewrite assign_run by (rewrite !length_insert; lia).
  reflexivity.
Qed.

Lemma DissQ1_run (h : Host) (g : Globals) (Q : Z) (B : list Z) (off : nat) :
  (off + 2 <= length B)%nat ->
  DissQ1 h Q B off g
  = Some (<[(off + 1)%nat := quarterword_byte h Q 1]>
            (<[off := quarterword_byte h Q 0]> B), g).
Proof.
  intros Hlen. unfold DissQ1, bind.
  rewrite assign_run by lia.
  rewrite assign_run by (rewrite length_insert; lia).
  reflexivity.
Qed.

Lemma MakeH2_run (h : Host) (g : Globals) (Q : list Z) (off : nat) (q0 q1 : Z) :
  Q !! off = Some q0 -> Q !! (off + 1)%nat = Some q1 ->
  MakeH2 h Q off g = Some (halfword_from_two_quarterwords h q0 q1, g).
Proof.
  intros H0 H1. unfold MakeH2, bind, deref. rewrite H0, H1. cbn [ret].
  rewrite DissQ1_run by (simpl; lia).
  rewrite DissQ1_run by (simpl; lia).
  erewrite MakeH1_run by reflexivity. reflexivity.
Qed.

(** ** Packing and unpacking *)

Lemma sizeof_long_ge_4 (h : Host) : (4 <= sizeof_long h)%nat.
Proof. destruct h as [e []]; unfold sizeof_long; simpl; lia. Qed.

Lemma padded_H_length (h : Host) (bs : list Z) :
  length bs = 4%nat -> length (bs ++ replicate (sizeof_long h - 4) 0) = sizeof_long h.
Proof.
  intros Hl. pose proof (sizeof_long_ge_4 h).
  rewrite length_app, length_replicate. lia.
Qed.

Lemma padded_bytes (bs : list Z) (n : nat) :
  Forall is_byte bs -> Forall is_byte (bs ++ replicate n 0).
Proof.
  intros Hb. apply Forall_app_2; [assumption|].
  apply Forall_replicate. unfold is_byte. lia.
Qed.

Lemma store_pack_H (h : Host) (bs : list Z) :
  length bs = 4%nat -> Forall is_byte bs ->
  store_All h (sizeof_long h) (pack_H h bs) = bs ++ replicate (sizeof_long h - 4) 0.
Proof.
  intros Hl Hb. unfold pack_H. rewrite Hl.
  rewrite <- (padded_H_length h bs Hl) at 1.
  apply store_load_All, padded_bytes, Hb.
Qed.

Lemma store_pack_Q (h : Host) (bs : list Z) :
  length bs = 2%nat -> Forall is_byte bs ->
  store_All h (sizeof_int h) (pack_Q h bs) = bs ++ [0; 0].
Proof.
  intros Hl Hb. unfold pack_Q. rewrite Hl.
  change (replicate (sizeof_int h - 2) 0) with [0; 0].
  replace (sizeof_int h) with (length (bs ++ [0; 0]))
    by (rewrite length_app, Hl; reflexivity).
  apply store_load_All, (padded_bytes bs 2), Hb.
Qed.

Lemma unpack_pack_H (h : Host) (bs : list Z) :
  length bs = 4%nat -> Forall is_byte bs -> unpack_H h (pack_H h bs) = bs.
Proof.
  intros Hl Hb. unfold unpack_H, halfword_byte. rewrite store_pack_H by assumption.
  destruct bs as [|b0 [|b1 [|b2 [|b3 [|]]]]]; try discriminate. reflexivity.
Qed.

Lemma unpack_pack_Q (h : Host) (bs : list Z) :
  length bs = 2%nat -> Forall is_byte bs -> unpack_Q h (pack_Q h bs) = bs.
Proof.
  intros Hl Hb. unfold unpack_Q, quarterword_byte. rewrite store_pack_Q by assumption.
  destruct bs as [|b0 [|b1 [|]]]; try discriminate. reflexivity.
Qed.

Lemma pack_unpack_H (h : Host) (v : Z) :
  is_halfword h v -> pack_H h (unpack_H h v) = v.
Proof.
  intros (bs & Hl & Hb & ->). by rewrite unpack_pack_H.
Qed.


Lemma pack_H_is_halfword (h : Host) (bs : list Z) :
  length bs = 4%nat -> Forall is_byte bs -> is_halfword h (pack_H h bs).
Proof. intros Hl Hb. by exists bs. Qed.

Lemma pack_H_range (h : Host) (bs : list Z) :
  length bs = 4%nat -> Forall is_byte bs ->
  0 <= pack_H h bs < 2 ^ (8 * Z.of_nat (sizeof_long h)).
Proof.
  intros Hl Hb. unfold pack_H. rewrite Hl.
  pose proof (load_All_bound h (bs ++ replicate (sizeof_long h - 4) 0)
                (padded_bytes _ _ Hb)) as Hr.
  by rewrite (padded_H_length h bs Hl) in Hr.
Qed.

Lemma load_store_id (h : Host) (n : nat) (v : Z) :
  0 <= v < 2 ^ (8 * Z.of_nat n) -> load_All h (store_All h n v) = v.
Proof. intros Hv. rewrite load_store_All. by apply Z.mod_small. Qed.

Lemma unpack_H_bytes (h : Host) (v : Z) :
  length (unpack_H h v) = 4%nat /\ Forall is_byte (unpack_H h v).
Proof.
  split; [reflexivity|]. unfold unpack_H.
  bytes_of_list.
Qed.

Lemma unpack_Q_bytes (h : Host) (v : Z) :
  length (unpack_Q h v) = 2%nat /\ Forall is_byte (unpack_Q h v).
Proof.
  split; [reflexivity|]. unfold unpack_Q.
  bytes_of_list.
Qed.

Lemma zip_with_lxor_padded (bs1 bs2 : list Z) (n : nat) :
  length bs1 = length bs2 ->
  zip_with Z.lxor (bs1 ++ replicate n 0) (bs2 ++ replicate n 0)
  = zip_with Z.lxor bs1 bs2 ++ replicate n 0.
Proof.
  intros Hl. rewrite zip_with_app by assumption. f_equal.
  induction n as [|n IH]; [reflexivity|]. simpl. by rewrite IH.
Qed.

Lemma zip_with_lxor_bytes (bs1 bs2 : list Z) :
  Forall is_byte bs1 -> Forall is_byte bs2 -> Forall is_byte (zip_with Z.lxor bs1 bs2).
Proof.
  intros H1. revert bs2. induction H1 as [|b bs1 Hb H1 IH]; intros bs2 H2.
  - apply Forall_nil_2.
  - destruct H2 as [|c bs2 Hc H2]; [apply Forall_nil_2|].
    cbn [zip_with]. apply Forall_cons_2; [by apply lxor_is_byte | by apply IH].
Qed.

Lemma is_halfword_lxor (h : Host) (u v : Z) :
  is_halfword h u -> is_halfword h v -> is_halfword h (Z.lxor u v).
Proof.
  intros (bs1 & Hl1 & Hb1 & ->) (bs2 & Hl2 & Hb2 & ->).
  exists (zip_with Z.lxor bs1 bs2). split; [|split].
  - rewrite length_zip_with. lia.
  - by apply zip_with_lxor_bytes.
  - unfold pack_H. rewrite Hl1, Hl2, length_zip_with, Hl1, Hl2.
    rewrite load_All_lxor
      by (rewrite ?length_app, ?length_replicate; auto using padded_bytes; lia).
    rewrite zip_with_lxor_padded by lia. reflexivity.
Qed.

Lemma f_host_is_halfword (h : Host) (A B : Z) : is_halfword h (f_host h A B).
Proof. unfold f_host. apply pack_H_is_halfword; apply f_bytes_ok. Qed.

Lemma FK_host_is_halfword (h : Host) (A B : Z) : is_halfword h (FK_host h A B).
Proof. unfold FK_host. apply pack_H_is_halfword; apply FK_bytes_ok. Qed.

Lemma is_halfword_range (h : Host) (v : Z) :
  is_halfword h v -> 0 <= v < 2 ^ (8 * Z.of_nat (sizeof_long h)).
Proof. intros (bs & Hl & Hb & ->). by apply pack_H_range. Qed.

Lemma halfword_from_two_quarterwords_is_halfword (h : Host) (q0 q1 : Z) :
  is_halfword h (halfword_from_two_quarterwords h q0 q1).
Proof.
  unfold halfword_from_two_quarterwords. apply pack_H_is_halfword.
  - reflexivity.
  - apply Forall_app_2; apply unpack_Q_bytes.
Qed.

(** ** SetKey computes the recurrence *)

Lemma canon_store (h : Host) (v : Z) : canon h (store_All h (sizeof_long h) v).
Proof. split; [apply length_store_All | apply store_All_bytes]. Qed.

Lemma canon_padded (h : Host) (bs : list Z) :
  length bs = 4%nat -> Forall is_byte bs ->
  canon h (bs ++ replicate (sizeof_long h - 4) 0).
Proof. intros Hl Hb. split; [by apply padded_H_length | by apply padded_bytes]. Qed.

Lemma take_insert2 (l : list Z) (i : nat) (x y : Z) :
  (i + 2 <= length l)%nat ->
  take (i + 2) (<[(i + 1)%nat := y]> (<[i := x]> l)) = take i l ++ [x; y].
Proof.
  intros Hl. replace (i + 2)%nat with (S (S i)) by lia.
  replace (i + 1)%nat with (S i) by lia.
  rewrite (take_S_r _ _ y) by (apply list_lookup_insert_eq; rewrite length_insert; lia).
  rewrite take_insert_ge by lia.
  rewrite (take_S_r _ _ x) by (apply list_lookup_insert_eq; lia).
  rewrite take_insert_ge by lia.
  by rewrite <- app_assoc.
Qed.

Lemma write_K_run (g : Globals) (i : nat) (v : Z) :
  (i < length (K g))%nat -> write_K i v g = Some (tt, set_K (<[i := v]> (K g)) g).
Proof.
  intros Hi. unfold write_K, bind, gets. rewrite assign_run by assumption.
  reflexivity.
Qed.

Lemma length_schedule_rounds (h : Host) (n : nat) (A B D : Z) :
  length (schedule_rounds h n A B D) = (2 * n)%nat.
Proof.
  revert A B D. induction n as [|n IH]; intros A B D; [reflexivity|].
  cbn [schedule_rounds length]. rewrite IH. lia.
Qed.

Lemma SetKey_loop_run (h : Host) (n : nat) :
  forall (A B D : list Z) (q0 q1 : Z) (g : Globals),
  (n <= 8)%nat -> canon h A -> canon h B -> canon h D ->
  Rot2_state_ok g -> length (K g) = 16%nat ->
  exists g',
    SetKey_loop h (S n) (9 - Z.of_nat n) (16 - 2 * n) A B D [q0; q1; 0; 0] g
    = Some (tt, g') /\
    K g' = take (16 - 2 * n) (K g)
           ++ schedule_rounds h n (load_All h A) (load_All h B) (load_All h D) /\
    K89 g' = K89 g /\ K1011 g' = K1011 g /\
    K1213 g' = K1213 g /\ K1415 g' = K1415 g /\
    Rot2_state_ok g'.
Proof.
  induction n as [|n IH]; intros A B D q0 q1 g Hn HA HB HD Hg HK.
  - exists g. cbn [SetKey_loop]. change (9 - Z.of_nat 0 <=? 8) with false. cbv iota.
    split; [reflexivity|]. rewrite take_ge by (rewrite HK; simpl; lia).
    rewrite app_nil_r. auto 10.
  - cbn [SetKey_loop].
    destruct (Z.leb_spec (9 - Z.of_nat (S n)) 8) as [_|]; [|lia].
    set (r := FK_host h (load_All h A) (Z.lxor (load_All h B) (load_All h D))).
    set (Out := (16 - 2 * S n)%nat).
    assert (HOut : (Out + 2 = 16 - 2 * n)%nat) by (unfold Out; lia).
    set (NewB := store_All h (sizeof_long h) r).
    set (g1 := set_K (<[Out := load_All h [Byte NewB 0; Byte NewB 1; 0; 0]]>
                        (K (Rot2_done g))) (Rot2_done g)).
    set (g2 := set_K (<[(Out + 1)%nat := load_All h [Byte NewB 2; Byte NewB 3; 0; 0]]>
                        (K g1)) g1).
    assert (Hlen1 : length (K g1) = 16%nat)
      by (unfold g1; cbn [K set_K Rot2_done set_Rot2]; rewrite length_insert; exact HK).
    destruct (IH B NewB A (Byte NewB 2) (Byte NewB 3) g2) as (g' & Hrun & HKg' & H1 & H2 & H3 & H4 & Hok).
    { lia. } { assumption. } { apply canon_store. } { assumption. }
    { split; reflexivity. }
    { unfold g2. cbn [K set_K]. rewrite length_insert. exact Hlen1. }
    exists g'. split; [|split; [|auto 10]].
    + unfold bind at 1. rewrite FK_run by assumption. fold r. cbv zeta. fold NewB.
      unfold bind at 1. cbn [insert list_insert].
      rewrite write_K_run by (cbn [K Rot2_done set_Rot2]; rewrite HK; unfold Out; lia).
      fold g1.
      unfold bind at 1.
      rewrite write_K_run by (rewrite Hlen1; unfold Out; lia).
      fold g2.
      replace (9 - Z.of_nat (S n) + 1) with (9 - Z.of_nat n) by lia.
      rewrite HOut. exact Hrun.
    + rewrite HKg'. cbn [schedule_rounds]. fold r.
      rewrite <- HOut.
      unfold g2, g1. cbn [K set_K Rot2_done set_Rot2].
      rewrite take_insert2 by (rewrite HK; unfold Out; lia).
      rewrite <- app_assoc. f_equal.
      unfold NewB. rewrite load_store_id
        by (apply is_halfword_range, FK_host_is_halfword).
      reflexivity.
Qed.

(** ** Running the monad step by step *)

Lemma bind_run {A B : Type} (m : M A) (k : A -> M B) (g g' : Globals) (a : A) :
  m g = Some (a, g') -> bind m k g = k a g'.
Proof. intros E. unfold bind. by rewrite E. Qed.

Lemma deref_run (g : Globals) (obj : list Z) (i : nat) (v : Z) :
  obj !! i = Some v -> deref obj i g = Some (v, g).
Proof. intros E. unfold deref. by rewrite E. Qed.

Lemma gets_run {A : Type} (proj : Globals -> A) (g : Globals) :
  gets proj g = Some (proj g, g).
Proof. reflexivity. Qed.

Lemma modify_run (upd : Globals -> Globals) (g : Globals) :
  modify upd g = Some (tt, upd g).
Proof. reflexivity. Qed.

Lemma lookup_subkey (Ks : list Z) (i : nat) :
  (i < length Ks)%nat -> Ks !! i = Some (subkey Ks i).
Proof.
  intros Hi. unfold subkey. destruct (lookup_lt_is_Some_2 Ks i Hi) as [v ->]. reflexivity.
Qed.

Lemma SetKey_run (h : Host) (key extra : list Z) (g : Globals) :
  length key = 8%nat -> Forall is_byte key ->
  Rot2_state_ok g -> length (K g) = 16%nat ->
  exists g',
    SetKey h (key ++ extra) g = Some (tt, g') /\
    schedule_of g' = derive_schedule h key /\
    Rot2_state_ok g'.
Proof.
  intros Hl Hb Hg HK.
  destruct key as [|k0 [|k1 [|k2 [|k3 [|k4 [|k5 [|k6 [|k7 [|]]]]]]]]]; try discriminate.
  assert (HA : Forall is_byte [k0; k1; k2; k3])
    by exact (Forall_take is_byte 4%nat _ Hb).
  assert (HB : Forall is_byte [k4; k5; k6; k7])
    by exact (Forall_drop is_byte 4%nat _ Hb).
  destruct (SetKey_loop_run h 8
              ([k0; k1; k2; k3] ++ replicate (sizeof_long h - 4) 0)
              ([k4; k5; k6; k7] ++ replicate (sizeof_long h - 4) 0)
              (store_All h (sizeof_long h) 0) 0 0 g)
    as (g1 & Hrun & HK1 & H89 & H1011 & H1213 & H1415 & Hok);
    [lia | by apply canon_padded | by apply canon_padded | apply canon_store
    | assumption | assumption |].
  change (take (16 - 2 * 8) (K g)) with (@nil Z) in HK1. rewrite app_nil_l in HK1.
  rewrite load_store_id in HK1 by (split; [lia | apply Z.pow_pos_nonneg; lia]).
  assert (Hlen : length (K g1) = 16%nat) by (by rewrite HK1, length_schedule_rounds).
  eexists. split; [|split].
  - unfold SetKey.
    do 8 (erewrite bind_run by (apply deref_run; reflexivity)).
    cbv zeta. rewrite !fill_0123.
    erewrite bind_run by exact Hrun.
    do 4 (erewrite bind_run by apply gets_run;
          erewrite bind_run
            by (apply MakeH2_run; apply lookup_subkey; cbn [K set_K89 set_K1011 set_K1213]; lia);
          try (erewrite bind_run by apply modify_run)).
    apply modify_run.
  - unfold schedule_of, derive_schedule.
    cbn [K K89 K1011 K1213 K1415 set_K89 set_K1011 set_K1213 set_K1415].
    rewrite HK1. reflexivity.
  - destruct Hok as [Ho1 Ho2]. split; assumption.
Qed.

(** ** Encrypt and Decrypt compute the composition of rounds *)

(** Each loop is related to the fold over the subkeys it has still to use;
    a call leaves the key schedule as it was and [Rot2] usable. *)
Lemma read_K_run (g : Globals) (i : nat) :
  (i < length (K g))%nat -> read_K i g = Some (subkey (K g) i, g).
Proof.
  intros Hi. unfold read_K. erewrite bind_run by apply gets_run.
  apply deref_run, lookup_subkey, Hi.
Qed.

Lemma Encrypt_round_run (h : Host) (g : Globals) (r L R : Z) :
  Rot2_state_ok g -> (Z.to_nat r < length (K g))%nat ->
  Encrypt_round h r L R g
  = Some (encrypt_round h (L, R) (subkey (K g) (Z.to_nat r)), Rot2_done g).
Proof.
  intros Hg Hr. unfold Encrypt_round.
  erewrite bind_run by (apply read_K_run; exact Hr).
  erewrite bind_run by (apply f_run; exact Hg).
  reflexivity.
Qed.

Lemma Decrypt_round_run (h : Host) (g : Globals) (r L R : Z) :
  Rot2_state_ok g -> (Z.to_nat r < length (K g))%nat ->
  Decrypt_round h r L R g
  = Some (decrypt_round h (L, R) (subkey (K g) (Z.to_nat r)), Rot2_done g).
Proof.
  intros Hg Hr. unfold Decrypt_round.
  erewrite bind_run by (apply read_K_run; exact Hr).
  erewrite bind_run by (apply f_run; exact Hg).
  reflexivity.
Qed.

Lemma Encrypt_loop_S (h : Host) (fuel : nat) (r L R : Z) :
  Encrypt_loop h (S fuel) r L R
  = if r <? 8
    then bind (Encrypt_round h r L R) (fun LR => Encrypt_loop h fuel (r + 1) LR.1 LR.2)
    else ret (L, R).
Proof. reflexivity. Qed.

Lemma Decrypt_loop_S (h : Host) (fuel : nat) (r L R : Z) :
  Decrypt_loop h (S fuel) r L R
  = if r >=? 0
    then bind (Decrypt_round h r L R) (fun LR => Decrypt_loop h fuel (r - 1) LR.1 LR.2)
    else ret (L, R).
Proof. reflexivity. Qed.

Lemma Encrypt_loop_run (h : Host) (n : nat) :
  forall (L R : Z) (g : Globals),
  (n <= 8)%nat -> Rot2_state_ok g -> length (K g) = 16%nat ->
  exists g',
    Encrypt_loop h (S n) (8 - Z.of_nat n) L R g
    = Some (fold_left (encrypt_round h) (drop (8 - n) (take 8 (K g))) (L, R), g') /\
    schedule_of g' = schedule_of g /\ Rot2_state_ok g'.
Proof.
  induction n as [|n IH]; intros L R g Hn Hg HK.
  - exists g. cbn [Encrypt_loop]. change (8 - Z.of_nat 0 <? 8) with false. cbv iota.
    rewrite drop_ge by (rewrite length_take; lia). auto.
  - assert (Hr : Z.to_nat (8 - Z.of_nat (S n)) = (8 - S n)%nat) by lia.
    destruct (IH (encrypt_round h (L, R) (subkey (K g) (8 - S n))).1
                 (encrypt_round h (L, R) (subkey (K g) (8 - S n))).2
                 (Rot2_done g)) as (g' & Hrun & Hks & Hok);
      [lia | apply Rot2_done_ok | exact HK |].
    exists g'. split; [|split; [exact Hks | exact Hok]].
    rewrite Encrypt_loop_S.
    destruct (Z.ltb_spec (8 - Z.of_nat (S n)) 8) as [_|]; [|lia].
    erewrite bind_run by (apply Encrypt_round_run; [exact Hg | lia]).
    rewrite Hr. replace (8 - Z.of_nat (S n) + 1) with (8 - Z.of_nat n) by lia.
    rewrite Hrun. cbn [K Rot2_done set_Rot2].
    rewrite (drop_S (take 8 (K g)) (subkey (K g) (8 - S n)) (8 - S n))
      by (rewrite lookup_take_lt by lia; apply lookup_subkey; lia).
    replace (S (8 - S n)) with (8 - n)%nat by lia.
    cbn [fold_left]. by rewrite <- surjective_pairing.
Qed.

Lemma Decrypt_loop_run (h : Host) (n : nat) :
  forall (L R : Z) (g : Globals),
  (n <= 8)%nat -> Rot2_state_ok g -> length (K g) = 16%nat ->
  exists g',
    Decrypt_loop h (S n) (Z.of_nat n - 1) L R g
    = Some (fold_left (decrypt_round h) (rev (take n (K g))) (L, R), g') /\
    schedule_of g' = schedule_of g /\ Rot2_state_ok g'.
Proof.
  induction n as [|n IH]; intros L R g Hn Hg HK.
  - exists g. cbn [Decrypt_loop]. change (Z.of_nat 0 - 1 >=? 0) with false. cbv iota.
    auto.
  - assert (Hr : Z.to_nat (Z.of_nat (S n) - 1) = n) by lia.
    destruct (IH (decrypt_round h (L, R) (subkey (K g) n)).1
                 (decrypt_round h (L, R) (subkey (K g) n)).2
                 (Rot2_done g)) as (g' & Hrun & Hks & Hok);
      [lia | apply Rot2_done_ok | exact HK |].
    exists g'. split; [|split; [exact Hks | exact Hok]].
    rewrite Decrypt_loop_S.
    destruct (Z.geb_spec (Z.of_nat (S n) - 1) 0) as [_|]; [|lia].
    erewrite bind_run by (apply Decrypt_round_run; [exact Hg | lia]).
    rewrite Hr. replace (Z.of_nat (S n) - 1 - 1) with (Z.of_nat n - 1) by lia.
    rewrite Hrun. cbn [K Rot2_done set_Rot2].
    rewrite (take_S_r (K g) n (subkey (K g) n)) by (apply lookup_subkey; lia).
    rewrite rev_app_distr. cbn [rev app fold_left]. by rewrite <- surjective_pairing.
Qed.

Lemma Encrypt_run (h : Host) (Plain extra Cipher : list Z) (g : Globals) :
  length Plain = 8%nat -> length Cipher = 8%nat ->
  Rot2_state_ok g -> length (K g) = 16%nat ->
  exists g',
    Encrypt h (Plain ++ extra) Cipher g
    = Some (encrypt_spec h (schedule_of g) Plain, g') /\
    schedule_of g' = schedule_of g /\ Rot2_state_ok g'.
Proof.
  intros HP HC Hg HK.
  destruct Plain as [|p0 [|p1 [|p2 [|p3 [|p4 [|p5 [|p6 [|p7 [|]]]]]]]]]; try discriminate.
  destruct Cipher as [|c0 [|c1 [|c2 [|c3 [|c4 [|c5 [|c6 [|c7 [|]]]]]]]]]; try discriminate.
  unfold encrypt_spec. cbn [take drop ks_K ks_K89 ks_K1011 ks_K1213 ks_K1415 schedule_of].
  set (L0 := Z.lxor (pack_H h [p0; p1; p2; p3]) (K89 g)).
  set (R0 := Z.lxor (Z.lxor (pack_H h [p4; p5; p6; p7]) (K1011 g)) L0).
  destruct (Encrypt_loop_run h 8 L0 R0 g) as (g' & Hrun & Hks & Hok); [lia | assumption..|].
  change (8 - Z.of_nat 8) with 0 in Hrun.
  change (drop (8 - 8) ?l) with l in Hrun.
  exists g'. split; [|split; assumption].
  unfold Encrypt.
  erewrite bind_run by (apply MakeH1_run; reflexivity).
  erewrite bind_run by (apply MakeH1_run; reflexivity).
  erewrite bind_run by apply gets_run.
  erewrite bind_run by apply gets_run.
  cbv zeta. fold L0. fold R0.
  erewrite bind_run by exact Hrun.
  erewrite bind_run by apply gets_run.
  erewrite bind_run by apply gets_run.
  erewrite bind_run by (apply DissH1_run; simpl; lia).
  rewrite DissH1_run by (simpl; lia).
  injection Hks as _ _ _ E1213 E1415. rewrite E1213, E1415.
  reflexivity.
Qed.

Lemma Decrypt_run (h : Host) (Cipher extra Plain : list Z) (g : Globals) :
  length Cipher = 8%nat -> length Plain = 8%nat ->
  Rot2_state_ok g -> length (K g) = 16%nat ->
  exists g',
    Decrypt h (Cipher ++ extra) Plain g
    = Some (decrypt_spec h (schedule_of g) Cipher, g') /\
    schedule_of g' = schedule_of g /\ Rot2_state_ok g'.
Proof.
  intros HC HP Hg HK.
  destruct Cipher as [|c0 [|c1 [|c2 [|c3 [|c4 [|c5 [|c6 [|c7 [|]]]]]]]]]; try discriminate.
  destruct Plain as [|p0 [|p1 [|p2 [|p3 [|p4 [|p5 [|p6 [|p7 [|]]]]]]]]]; try discriminate.
  unfold decrypt_spec. cbn [take drop ks_K ks_K89 ks_K1011 ks_K1213 ks_K1415 schedule_of].
  set (R0 := Z.lxor (pack_H h [c0; c1; c2; c3]) (K1213 g)).
  set (L0 := Z.lxor (Z.lxor (pack_H h [c4; c5; c6; c7]) (K1415 g)) R0).
  destruct (Decrypt_loop_run h 8 L0 R0 g) as (g' & Hrun & Hks & Hok); [lia | assumption..|].
  change (Z.of_nat 8 - 1) with 7 in Hrun.
  exists g'. split; [|split; assumption].
  unfold Decrypt.
  erewrite bind_run by (apply MakeH1_run; reflexivity).
  erewrite bind_run by (apply MakeH1_run; reflexivity).
  erewrite bind_run by apply gets_run.
  erewrite bind_run by apply gets_run.
  cbv zeta. fold R0. fold L0.
  erewrite bind_run by exact Hrun.
  erewrite bind_run by apply gets_run.
  erewrite bind_run by apply gets_run.
  erewrite bind_run by (apply DissH1_run; simpl; lia).
  rewrite DissH1_run by (simpl; lia).
  injection Hks as _ E89 E1011 _ _. rewrite E89, E1011.
  reflexivity.
Qed.

(** ** Decryption inverts encryption *)

Lemma lxor_cancel_r (a b : Z) : Z.lxor (Z.lxor a b) b = a.
Proof. by rewrite Z.lxor_assoc, Z.lxor_nilpotent, Z.lxor_0_r. Qed.

Lemma decrypt_encrypt_round (h : Host) (LR : Z * Z) (k : Z) :
  decrypt_round h (encrypt_round h LR k) k = LR.
Proof.
  destruct LR as [L R]. unfold decrypt_round, encrypt_round. cbn [fst snd].
  by rewrite lxor_cancel_r.
Qed.

Lemma fold_rounds_inverse (h : Host) (ks : list Z) (LR : Z * Z) :
  fold_left (decrypt_round h) (rev ks) (fold_left (encrypt_round h) ks LR) = LR.
Proof.
  revert LR. induction ks as [|k ks IH]; intros LR; [reflexivity|].
  cbn [rev fold_left]. rewrite fold_left_app. cbn [fold_left].
  rewrite IH. apply decrypt_encrypt_round.
Qed.

Lemma encrypt_round_is_halfword (h : Host) (LR : Z * Z) (k : Z) :
  is_halfword h LR.1 -> is_halfword h LR.2 ->
  is_halfword h (encrypt_round h LR k).1 /\ is_halfword h (encrypt_round h LR k).2.
Proof.
  intros HL HR. unfold encrypt_round. cbn [fst snd]. split; [assumption|].
  apply is_halfword_lxor; [assumption | apply f_host_is_halfword].
Qed.

Lemma decrypt_round_is_halfword (h : Host) (LR : Z * Z) (k : Z) :
  is_halfword h LR.1 -> is_halfword h LR.2 ->
  is_halfword h (decrypt_round h LR k).1 /\ is_halfword h (decrypt_round h LR k).2.
Proof.
  intros HL HR. unfold decrypt_round. cbn [fst snd]. split; [|assumption].
  apply is_halfword_lxor; [assumption | apply f_host_is_halfword].
Qed.

Lemma encrypt_rounds_is_halfword (h : Host) (ks : list Z) (LR : Z * Z) :
  is_halfword h LR.1 -> is_halfword h LR.2 ->
  is_halfword h (fold_left (encrypt_round h) ks LR).1 /\
  is_halfword h (fold_left (encrypt_round h) ks LR).2.
Proof.
  revert LR. induction ks as [|k ks IH]; intros LR HL HR; [by split|].
  cbn [fold_left]. apply IH; by apply encrypt_round_is_halfword.
Qed.

Lemma decrypt_rounds_is_halfword (h : Host) (ks : list Z) (LR : Z * Z) :
  is_halfword h LR.1 -> is_halfword h LR.2 ->
  is_halfword h (fold_left (decrypt_round h) ks LR).1 /\
  is_halfword h (fold_left (decrypt_round h) ks LR).2.
Proof.
  revert LR. induction ks as [|k ks IH]; intros LR HL HR; [by split|].
  cbn [fold_left]. apply IH; by apply decrypt_round_is_halfword.
Qed.

Lemma derive_schedule_ok (h : Host) (key : list Z) :
  schedule_ok h (derive_schedule h key).
Proof.
  unfold schedule_ok, derive_schedule.
  cbn [ks_K ks_K89 ks_K1011 ks_K1213 ks_K1415].
  split; [apply length_schedule_rounds|].
  repeat split; apply halfword_from_two_quarterwords_is_halfword.
Qed.

Lemma take_4_unpack_H (h : Host) (a : Z) (l : list Z) :
  take 4 (unpack_H h a ++ l) = unpack_H h a.
Proof. reflexivity. Qed.

Lemma take_4_unpack_H_nil (h : Host) (a : Z) : take 4 (unpack_H h a) = unpack_H h a.
Proof. reflexivity. Qed.

Lemma drop_4_unpack_H (h : Host) (a : Z) (l : list Z) :
  drop 4 (unpack_H h a ++ l) = l.
Proof. reflexivity. Qed.

Lemma decrypt_encrypt_spec (h : Host) (ks : KeySchedule) (p : list Z) :
  schedule_ok h ks -> length p = 8%nat -> Forall is_byte p ->
  decrypt_spec h ks (encrypt_spec h ks p) = p.
Proof.
  intros (_ & H89 & H1011 & H1213 & H1415) Hl Hb.
  destruct p as [|p0 [|p1 [|p2 [|p3 [|p4 [|p5 [|p6 [|p7 [|]]]]]]]]]; try discriminate.
  assert (HbL : Forall is_byte [p0; p1; p2; p3]) by exact (Forall_take is_byte 4%nat _ Hb).
  assert (HbR : Forall is_byte [p4; p5; p6; p7]) by exact (Forall_drop is_byte 4%nat _ Hb).
  unfold encrypt_spec. cbn [take drop].
  set (PL := pack_H h [p0; p1; p2; p3]). set (PR := pack_H h [p4; p5; p6; p7]).
  assert (HPL : is_halfword h PL) by (by apply pack_H_is_halfword).
  assert (HPR : is_halfword h PR) by (by apply pack_H_is_halfword).
  set (L0 := Z.lxor PL (ks_K89 ks)).
  set (R0 := Z.lxor (Z.lxor PR (ks_K1011 ks)) L0).
  assert (HL0 : is_halfword h L0) by (by apply is_halfword_lxor).
  assert (HR0 : is_halfword h R0) by (by repeat apply is_halfword_lxor).
  destruct (encrypt_rounds_is_halfword h (take 8 (ks_K ks)) (L0, R0) HL0 HR0) as [HL8 HR8].
  pose proof (fold_rounds_inverse h (take 8 (ks_K ks)) (L0, R0)) as Hinv.
  set (LR := fold_left (encrypt_round h) (take 8 (ks_K ks)) (L0, R0)) in *.
  unfold decrypt_spec. rewrite drop_4_unpack_H, take_4_unpack_H.
  rewrite take_4_unpack_H_nil.
  rewrite !pack_unpack_H by (by repeat apply is_halfword_lxor).
  rewrite !lxor_cancel_r.
  rewrite <- surjective_pairing, Hinv. cbn [fst snd].
  unfold R0. rewrite !lxor_cancel_r. unfold L0. rewrite lxor_cancel_r.
  unfold PL, PR. rewrite !unpack_pack_H by (try reflexivity; assumption).
  reflexivity.
Qed.

(** ** Little-endian hosts: words by significance *)

Lemma land_disjoint (hi lo n : Z) :
  0 <= n -> 0 <= lo < 2 ^ n -> Z.land (hi * 2 ^ n) lo = 0.
Proof.
  intros Hn Hlo. apply Z.bits_inj'. intros i Hi.
  rewrite Z.land_spec, Z.bits_0.
  destruct (Z.lt_ge_cases i n) as [Hlt|Hge].
  - by rewrite Z.mul_pow2_bits_low by lia.
  - rewrite <- (Z.mod_small lo (2 ^ n)) by lia.
    rewrite Z.mod_pow2_bits_high by lia. apply andb_false_r.
Qed.

Lemma lor_disjoint_add (hi lo n m : Z) :
  0 <= n -> m = 2 ^ n -> 0 <= lo < m -> Z.lor (hi * m) lo = hi * m + lo.
Proof.
  intros Hn -> Hlo. pose proof (land_disjoint hi lo n Hn Hlo) as Hd.
  rewrite <- Z.lxor_lor by exact Hd. symmetry. by apply Z.add_nocarry_lxor.
Qed.

Lemma bytes_to_halfword_sum (b0 b1 b2 b3 : Z) :
  is_byte b0 -> is_byte b1 -> is_byte b2 -> is_byte b3 ->
  bytes_to_halfword b0 b1 b2 b3 = b3 + 256 * (b2 + 256 * (b1 + 256 * b0)).
Proof.
  unfold is_byte, bytes_to_halfword. intros H0 H1 H2 H3.
  rewrite !Z.shiftl_mul_pow2 by lia.
  change (2 ^ 24) with 16777216. change (2 ^ 16) with 65536. change (2 ^ 8) with 256.
  rewrite (lor_disjoint_add b0 (b1 * 65536) 24 16777216) by (try reflexivity; lia).
  replace (b0 * 16777216 + b1 * 65536) with ((b0 * 256 + b1) * 65536) by lia.
  rewrite (lor_disjoint_add _ (b2 * 256) 16 65536) by (try reflexivity; lia).
  replace ((b0 * 256 + b1) * 65536 + b2 * 256) with ((b0 * 65536 + b1 * 256 + b2) * 256) by lia.
  rewrite (lor_disjoint_add _ b3 8 256) by (try reflexivity; lia). lia.
Qed.

Lemma bytes_to_quarterword_sum (b0 b1 : Z) :
  is_byte b0 -> is_byte b1 -> bytes_to_quarterword b0 b1 = b1 + 256 * b0.
Proof.
  unfold is_byte, bytes_to_quarterword. intros H0 H1.
  rewrite Z.shiftl_mul_pow2 by lia. change (2 ^ 8) with 256.
  rewrite (lor_disjoint_add b0 b1 8 256) by (try reflexivity; lia). lia.
Qed.

Lemma byte_of_0 (v : Z) : byte_of v 0 = v mod 256.
Proof. unfold byte_of. by rewrite land_255, Z.shiftr_0_r. Qed.

Lemma byte_of_1 (v : Z) : byte_of v 1 = v / 256 mod 256.
Proof. unfold byte_of. rewrite land_255, Z.shiftr_div_pow2 by lia. reflexivity. Qed.

Lemma byte_of_2 (v : Z) : byte_of v 2 = v / 256 / 256 mod 256.
Proof.
  unfold byte_of. rewrite land_255, Z.shiftr_div_pow2 by lia.
  rewrite Z.div_div by lia. reflexivity.
Qed.

Lemma byte_of_3 (v : Z) : byte_of v 3 = v / 256 / 256 / 256 mod 256.
Proof.
  unfold byte_of. rewrite land_255, Z.shiftr_div_pow2 by lia.
  rewrite !Z.div_div by lia. reflexivity.
Qed.

Lemma decode_le_padded (l : list Z) (n : nat) :
  decode_le (l ++ replicate n 0) = decode_le l.
Proof.
  induction l as [|b l IH]; cbn [app decode_le].
  - induction n as [|n IHn]; [reflexivity|]. cbn [replicate decode_le]. lia.
  - by rewrite IH.
Qed.

Lemma pack_H_little_endian (dm : DataModel) (b0 b1 b2 b3 : Z) :
  is_byte b0 -> is_byte b1 -> is_byte b2 -> is_byte b3 ->
  pack_H (mkHost LittleEndian dm) [b0; b1; b2; b3] = bytes_to_halfword b3 b2 b1 b0.
Proof.
  intros H0 H1 H2 H3. rewrite bytes_to_halfword_sum by assumption.
  unfold pack_H, load_All. cbn [endian]. rewrite decode_le_padded.
  cbn [decode_le]. lia.
Qed.

Lemma pack_Q_little_endian (dm : DataModel) (b0 b1 : Z) :
  is_byte b0 -> is_byte b1 ->
  pack_Q (mkHost LittleEndian dm) [b0; b1] = bytes_to_quarterword b1 b0.
Proof.
  intros H0 H1. rewrite bytes_to_quarterword_sum by assumption.
  unfold pack_Q, load_All. cbn [endian]. rewrite decode_le_padded.
  cbn [decode_le]. lia.
Qed.

Lemma pack_H_big_endian_ilp32 (b0 b1 b2 b3 : Z) :
  is_byte b0 -> is_byte b1 -> is_byte b2 -> is_byte b3 ->
  pack_H ilp32_be [b0; b1; b2; b3] = bytes_to_halfword b0 b1 b2 b3.
Proof.
  intros H0 H1 H2 H3. rewrite bytes_to_halfword_sum by assumption.
  unfold pack_H, load_All. cbn. lia.
Qed.

Lemma halfword_byte_little_endian (dm : DataModel) (v : Z) :
  let h := mkHost LittleEndian dm in
  halfword_byte h v 0 = byte_of v 0 /\ halfword_byte h v 1 = byte_of v 1 /\
  halfword_byte h v 2 = byte_of v 2 /\ halfword_byte h v 3 = byte_of v 3.
Proof.
  rewrite byte_of_0, byte_of_1, byte_of_2, byte_of_3.
  destruct dm; repeat split; reflexivity.
Qed.

Lemma quarterword_byte_little_endian (dm : DataModel) (v : Z) :
  let h := mkHost LittleEndian dm in
  quarterword_byte h v 0 = byte_of v 0 /\ quarterword_byte h v 1 = byte_of v 1.
Proof.
  rewrite byte_of_0, byte_of_1. split; reflexivity.
Qed.

Lemma is_halfword_little_endian (dm : DataModel) (v : Z) :
  is_halfword (mkHost LittleEndian dm) v <-> 0 <= v < 2 ^ 32.
Proof.
  split.
  - intros (bs & Hl & Hb & ->). unfold pack_H, load_All. cbn [endian].
    rewrite decode_le_padded.
    pose proof (decode_le_bound bs Hb) as Hr. by rewrite Hl in Hr.
  - intros Hv. exists (encode_le 4 v).
    split; [apply length_encode_le|]. split; [apply encode_le_bytes|].
    unfold pack_H, load_All. cbn [endian]. rewrite decode_le_padded.
    rewrite decode_encode_le. symmetry. by apply Z.mod_small.
Qed.

Lemma is_quarterword_little_endian (dm : DataModel) (v : Z) :
  is_quarterword (mkHost LittleEndian dm) v <-> 0 <= v < 2 ^ 16.
Proof.
  split.
  - intros (bs & Hl & Hb & ->). unfold pack_Q, load_All. cbn [endian].
    rewrite decode_le_padded.
    pose proof (decode_le_bound bs Hb) as Hr. by rewrite Hl in Hr.
  - intros Hv. exists (encode_le 2 v).
    split; [apply length_encode_le|]. split; [apply encode_le_bytes|].
    unfold pack_Q, load_All. cbn [endian]. rewrite decode_le_padded.
    rewrite decode_encode_le. symmetry. by apply Z.mod_small.
Qed.

Lemma f_host_little_endian (dm : DataModel) (A B : Z) :
  f_host (mkHost LittleEndian dm) A B = f_lsb_first A B.
Proof.
  unfold f_host, f_lsb_first, f_bytes.
  destruct (halfword_byte_little_endian dm A) as (-> & -> & -> & ->).
  destruct (quarterword_byte_little_endian dm B) as (-> & ->).
  destruct (f_bytes_of _ _ _ _ _ _) as [[[r0 r1] r2] r3] eqn:E.
  apply pack_H_little_endian.
  all: unfold f_bytes_of in E; cbv zeta in E; injection E as <- <- <- <-;
    apply rot2_is_byte.
Qed.

(** ** The test harness *)

(** [main] on the LP64 little-endian host: the sixteen subkeys it prints,
    the published FEAL-8 ciphertext CEEF2C86F2490752 of the all-zero block
    under the key 0123456789ABCDEF, and the block decrypted back. *)
Example main_run_lp64_le :
  option_map fst (main_run lp64_le initial_globals)
  = Some ([15327; 14026; 31985; 60442; 42309; 51129; 60198; 9645;
           10891; 47084; 20652; 19613; 52514; 39751; 54696; 46348],
          [206; 239; 44; 134; 242; 73; 7; 82],
          [0; 0; 0; 0; 0; 0; 0; 0]).
Proof. vm_compute. reflexivity. Qed.

(** The bytes of the ciphertext do not depend on the host. *)
Example main_run_ciphertext_all_hosts :
  forall h, option_map (fun r => (r.1.1.2, r.1.2)) (main_run h initial_globals)
            = Some ([206; 239; 44; 134; 242; 73; 7; 82], [0; 0; 0; 0; 0; 0; 0; 0]).
Proof. intros [[] []]; vm_compute; reflexivity. Qed.

(** * The claims *)

(** C1. For every 8-byte master key and every 8-byte block, on every host:
    [SetKey] on the key, then [Encrypt] of the block, then [Decrypt] of the
    resulting ciphertext all return, and the decrypted block is the block
    that was encrypted. *)
Theorem C1_decrypt_encrypt_roundtrip
    (h : Host) (key block Cipher Plain : list Z) (g : Globals) :
  length key = 8%nat -> Forall is_byte key ->
  length block = 8%nat -> Forall is_byte block ->
  length Cipher = 8%nat -> length Plain = 8%nat ->
  Rot2_state_ok g -> length (K g) = 16%nat ->
  exists g1 c g2 g3,
    SetKey h key g = Some (tt, g1) /\
    Encrypt h block Cipher g1 = Some (c, g2) /\
    Decrypt h c Plain g2 = Some (block, g3).
Proof.
  intros Hk Hkb Hb Hbb HC HP Hg HK.
  destruct (SetKey_run h key [] g Hk Hkb Hg HK) as (g1 & Hset & Hks & Hok1).
  rewrite app_nil_r in Hset.
  assert (HK1 : length (K g1) = 16%nat).
  { change (K g1) with (ks_K (schedule_of g1)). rewrite Hks.
    apply derive_schedule_ok. }
  destruct (Encrypt_run h block [] Cipher g1 Hb HC Hok1 HK1) as (g2 & Henc & Hks2 & Hok2).
  rewrite app_nil_r in Henc.
  assert (HK2 : length (K g2) = 16%nat).
  { change (K g2) with (ks_K (schedule_of g2)). by rewrite Hks2. }
  assert (Hc : length (encrypt_spec h (schedule_of g1) block) = 8%nat) by reflexivity.
  destruct (Decrypt_run h _ [] Plain g2 Hc HP Hok2 HK2) as (g3 & Hdec & _ & _).
  rewrite app_nil_r in Hdec.
  exists g1, (encrypt_spec h (schedule_of g1) block), g2, g3.
  split; [exact Hset|]. split; [exact Henc|].
  rewrite Hdec, Hks2. f_equal. f_equal.
  apply decrypt_encrypt_spec; [|assumption..].
  rewrite Hks. apply derive_schedule_ok.
Qed.

Lemma C1_roundtrip_witness :
  exists g1 c g2 g3,
    SetKey lp64_le main_key initial_globals = Some (tt, g1) /\
    Encrypt lp64_le main_plain (replicate 8 0) g1 = Some (c, g2) /\
    Decrypt lp64_le c (replicate 8 0) g2 = Some (main_plain, g3).
Proof.
  apply (C1_decrypt_encrypt_roundtrip lp64_le main_key main_plain
           (replicate 8 0) (replicate 8 0) initial_globals).
  - reflexivity.
  - unfold main_key, is_byte. repeat constructor; lia.
  - reflexivity.
  - unfold main_plain, is_byte. repeat constructor; lia.
  - reflexivity.
  - reflexivity.
  - exact Rot2_initial_ok.
  - reflexivity.
Defined.

(** C2. From every state in which the table of [Rot2] has its 256 entries,
    the increment-and-wrap loop returns a table whose entry [v] is the
    direct formula [((v << 2) | (v >> 6)) & 0xFF] for every byte [v];
    [Rot2 v] returns that value, and for all bytes [x1], [x2],
    [S0 x1 x2 = rot2 ((x1 + x2) mod 256)] and
    [S1 x1 x2 = rot2 ((x1 + x2 + 1) mod 256)]. *)
Theorem C2_Rot2_table_is_rot2 (g : Globals) (v x1 x2 : Z) :
  Rot2_state_ok g -> is_byte v -> is_byte x1 -> is_byte x2 ->
  (exists tbl, Rot2_fill 257 0 0 0 (Rot2_RetVal g) = Some tbl /\
               tbl !! Z.to_nat v
               = Some (Z.land (Z.lor (Z.shiftl v 2) (Z.shiftr v 6)) 255)) /\
  Rot2 v g = Some (rot2 v, Rot2_done g) /\
  S0 x1 x2 g = Some (rot2 ((x1 + x2) mod 256), Rot2_done g) /\
  S1 x1 x2 g = Some (rot2 ((x1 + x2 + 1) mod 256), Rot2_done g).
Proof.
  intros Hg Hv H1 H2. split; [|split; [|split]].
  - exists Rot2_table. split; [apply Rot2_fill_table, Hg|].
    unfold is_byte in Hv. rewrite Rot2_table_lookup by lia.
    rewrite Z2Nat.id by lia. reflexivity.
  - by apply Rot2_run.
  - by apply S0_run.
  - by apply S1_run.
Qed.

Lemma C2_Rot2_witness :
  (exists tbl, Rot2_fill 257 0 0 0 (Rot2_RetVal initial_globals) = Some tbl /\
               tbl !! Z.to_nat 200
               = Some (Z.land (Z.lor (Z.shiftl 200 2) (Z.shiftr 200 6)) 255)) /\
  Rot2 200 initial_globals = Some (rot2 200, Rot2_done initial_globals) /\
  S0 255 1 initial_globals = Some (rot2 ((255 + 1) mod 256), Rot2_done initial_globals) /\
  S1 255 1 initial_globals = Some (rot2 ((255 + 1 + 1) mod 256), Rot2_done initial_globals).
Proof.
  apply (C2_Rot2_table_is_rot2 initial_globals 200 255 1).
  - exact Rot2_initial_ok.
  - unfold is_byte; lia.
  - unfold is_byte; lia.
  - unfold is_byte; lia.
Defined.

(** C3 (as the code has it). For all bytes [b0 b1 b2 b3], [MakeH1] returns
    the halfword whose storage starts with [b0 b1 b2 b3]: on a
    little-endian host, with 4-byte and with 8-byte [unsigned long], that is
    [(b3<<24)|(b2<<16)|(b1<<8)|b0], a value below [2^32]; the value
    [(b0<<24)|(b1<<16)|(b2<<8)|b3] is what a big-endian host with 4-byte
    [unsigned long] returns. *)
Theorem C3_MakeH1_value (dm : DataModel) (b0 b1 b2 b3 : Z) (g : Globals) :
  is_byte b0 -> is_byte b1 -> is_byte b2 -> is_byte b3 ->
  MakeH1 (mkHost LittleEndian dm) [b0; b1; b2; b3] 0 g
  = Some (bytes_to_halfword b3 b2 b1 b0, g) /\
  0 <= bytes_to_halfword b3 b2 b1 b0 < 2 ^ 32 /\
  MakeH1 ilp32_be [b0; b1; b2; b3] 0 g = Some (bytes_to_halfword b0 b1 b2 b3, g).
Proof.
  intros H0 H1 H2 H3. split; [|split].
  - erewrite MakeH1_run by reflexivity. by rewrite pack_H_little_endian.
  - rewrite <- (pack_H_little_endian dm) by assumption.
    apply (is_halfword_little_endian dm), pack_H_is_halfword; [reflexivity|].
    by repeat apply Forall_cons_2.
  - erewrite MakeH1_run by reflexivity. by rewrite pack_H_big_endian_ilp32.
Qed.

Lemma C3_MakeH1_witness :
  MakeH1 (mkHost LittleEndian LP64) [1; 2; 3; 4] 0 initial_globals
  = Some (bytes_to_halfword 4 3 2 1, initial_globals) /\
  0 <= bytes_to_halfword 4 3 2 1 < 2 ^ 32 /\
  MakeH1 ilp32_be [1; 2; 3; 4] 0 initial_globals
  = Some (bytes_to_halfword 1 2 3 4, initial_globals).
Proof.
  apply (C3_MakeH1_value LP64 1 2 3 4 initial_globals); unfold is_byte; lia.
Defined.

(** C3, the claim as stated fails: on the LP64 little-endian host the bytes
    1, 0, 0, 0 give the halfword 1, not [1 << 24]. *)
Lemma C3_MakeH1_counterexample :
  MakeH1 lp64_le [1; 0; 0; 0] 0 initial_globals = Some (1, initial_globals) /\
  bytes_to_halfword 1 0 0 0 = 16777216.
Proof. split; reflexivity. Qed.

(** C4. For every 8-byte master key, on every host, [SetKey] returns and
    leaves in [K], [K89], [K1011], [K1213], [K1415] the schedule of the
    recurrence: [A] from key bytes 0..3, [B] from key bytes 4..7, [D = 0];
    eight times [NewB = FK(A, B xor D)], [D], [A], [B] become [A], [B],
    [NewB], and the quarterwords from bytes 0, 1 and from bytes 2, 3 of [B]
    are emitted in that order; the four whitening halfwords are made from
    the subkey pairs (8,9), (10,11), (12,13), (14,15). *)
Theorem C4_SetKey_recurrence (h : Host) (key : list Z) (g : Globals) :
  length key = 8%nat -> Forall is_byte key ->
  Rot2_state_ok g -> length (K g) = 16%nat ->
  exists g',
    SetKey h key g = Some (tt, g') /\
    schedule_of g' = derive_schedule h key.
Proof.
  intros Hk Hkb Hg HK.
  destruct (SetKey_run h key [] g Hk Hkb Hg HK) as (g1 & Hset & Hks & _).
  rewrite app_nil_r in Hset. by exists g1.
Qed.

Lemma C4_SetKey_witness :
  exists g',
    SetKey lp64_le main_key initial_globals = Some (tt, g') /\
    schedule_of g' = derive_schedule lp64_le main_key.
Proof.
  apply (C4_SetKey_recurrence lp64_le main_key initial_globals).
  - reflexivity.
  - unfold main_key, is_byte. repeat constructor; lia.
  - exact Rot2_initial_ok.
  - reflexivity.
Defined.

(** C5. For every 8-byte plaintext block and every key schedule held in the
    process-wide variables, on every host, [Encrypt] returns the block of
    [encrypt_spec]: pre-whitening ([L xor K89], [R xor K1011], [R xor L]),
    the eight rounds [(L, R) := (R, L xor f(R, K[r]))] folded over
    [K[0], ..., K[7]] in index order, post-whitening ([L xor R],
    [R xor K1213], [L xor K1415]), and the four bytes of [R] followed by the
    four bytes of [L]. *)
Theorem C5_Encrypt_structure (h : Host) (block Cipher : list Z) (g : Globals) :
  length block = 8%nat -> length Cipher = 8%nat ->
  Rot2_state_ok g -> length (K g) = 16%nat ->
  exists g',
    Encrypt h block Cipher g = Some (encrypt_spec h (schedule_of g) block, g') /\
    take 8 (K g) = [subkey (K g) 0; subkey (K g) 1; subkey (K g) 2; subkey (K g) 3;
                    subkey (K g) 4; subkey (K g) 5; subkey (K g) 6; subkey (K g) 7].
Proof.
  intros Hb HC Hg HK.
  destruct (Encrypt_run h block [] Cipher g Hb HC Hg HK) as (g' & Henc & _ & _).
  rewrite app_nil_r in Henc. exists g'. split; [exact Henc|].
  unfold subkey.
  destruct (K g) as [|k0 [|k1 [|k2 [|k3 [|k4 [|k5 [|k6 [|k7 l]]]]]]]]; try discriminate.
  reflexivity.
Qed.

Lemma C5_Encrypt_witness :
  exists g',
    Encrypt lp64_le main_plain (replicate 8 0) initial_globals
    = Some (encrypt_spec lp64_le (schedule_of initial_globals) main_plain, g') /\
    take 8 (K initial_globals)
    = [subkey (K initial_globals) 0; subkey (K initial_globals) 1;
       subkey (K initial_globals) 2; subkey (K initial_globals) 3;
       subkey (K initial_globals) 4; subkey (K initial_globals) 5;
       subkey (K initial_globals) 6; subkey (K initial_globals) 7].
Proof.
  apply (C5_Encrypt_structure lp64_le main_plain (replicate 8 0) initial_globals).
  - reflexivity.
  - reflexivity.
  - exact Rot2_initial_ok.
  - reflexivity.
Defined.

(** C6 (as the code has it). On a little-endian host, for every halfword
    [A] and quarterword [B], with [a0], [a1], [a2], [a3] the bytes of [A]
    and [b0], [b1] the bytes of [B] in storage order (byte 0 the least
    significant), [f(A, B)] is the halfword whose bytes in storage order are
    [(S0(a0, t1'), t1', t2', S1(a3, t2'))], where [t1 = a1 xor b0 xor a0],
    [t2 = a2 xor b1 xor a3], [t1' = S1(t1, t2)], [t2' = S0(t2, t1')]. *)
Theorem C6_f_formula (dm : DataModel) (A B : Z) (g : Globals) :
  Rot2_state_ok g ->
  f (mkHost LittleEndian dm) A B g = Some (f_lsb_first A B, Rot2_done g).
Proof.
  intros Hg. rewrite f_run by assumption. by rewrite f_host_little_endian.
Qed.

Lemma C6_f_witness :
  f (mkHost LittleEndian LP64) 1 0 initial_globals
  = Some (f_lsb_first 1 0, Rot2_done initial_globals).
Proof.
  apply (C6_f_formula LP64 1 0 initial_globals). exact Rot2_initial_ok.
Defined.

(** C6, the claim as stated fails: on the LP64 little-endian host
    [f(1, 0)] is not the halfword the formula gives when byte 0 is taken as
    the most significant byte. *)
Lemma C6_f_counterexample :
  f lp64_le 1 0 initial_globals = Some (2216691748, Rot2_done initial_globals) /\
  f_msb_first 1 0 = 537404568.
Proof. split; reflexivity. Qed.

(** ** Bounds on little-endian hosts *)

Lemma schedule_rounds_quarterwords (h : Host) (n : nat) (A B D : Z) :
  Forall (is_quarterword h) (schedule_rounds h n A B D).
Proof.
  revert A B D. induction n as [|n IH]; intros A B D; [apply Forall_nil_2|].
  cbn [schedule_rounds].
  repeat apply Forall_cons_2; [| |apply IH].
  - eexists. split; [|split; [|reflexivity]]; [reflexivity|].
    bytes_of_list.
  - eexists. split; [|split; [|reflexivity]]; [reflexivity|].
    bytes_of_list.
Qed.

Lemma take_4_bytes (l : list Z) : Forall is_byte l -> Forall is_byte (take 4 l).
Proof. apply Forall_take. Qed.



Lemma halfword_bound_lxor (a b : Z) :
  0 <= a < 2 ^ 32 -> 0 <= b < 2 ^ 32 -> 0 <= Z.lxor a b < 2 ^ 32.
Proof. intros. apply (lxor_bound 32); lia. Qed.

(** ** Every value of L and R in Encrypt and Decrypt *)

Lemma last_cons_default {A : Type} (l : list A) (a d : A) :
  List.last (a :: l) d = List.last l a.
Proof.
  revert a d. induction l as [|b l IH]; intros a d; [reflexivity|].
  change (List.last (a :: b :: l) d) with (List.last (b :: l) d).
  by rewrite (IH b d), (IH b a).
Qed.

Lemma last_app_cons {A : Type} (l l' : list A) (x d : A) :
  List.last (l ++ x :: l') d = List.last l' x.
Proof.
  revert d. induction l as [|a l IH]; intros d; cbn [app].
  - apply last_cons_default.
  - rewrite last_cons_default. apply IH.
Qed.

Lemma Encrypt_loop_states_S (h : Host) (fuel : nat) (r L R : Z) :
  Encrypt_loop_states h (S fuel) r L R
  = if r <? 8
    then bind (Encrypt_round h r L R) (fun LR =>
           bind (Encrypt_loop_states h fuel (r + 1) LR.1 LR.2) (fun rest =>
             ret (LR :: rest)))
    else ret [].
Proof. reflexivity. Qed.

Lemma Decrypt_loop_states_S (h : Host) (fuel : nat) (r L R : Z) :
  Decrypt_loop_states h (S fuel) r L R
  = if r >=? 0
    then bind (Decrypt_round h r L R) (fun LR =>
           bind (Decrypt_loop_states h fuel (r - 1) LR.1 LR.2) (fun rest =>
             ret (LR :: rest)))
    else ret [].
Proof. reflexivity. Qed.

(** The recorded loop passes through the pairs of the successive rounds and
    ends on the pair the loop of [Encrypt] returns. *)
Lemma Encrypt_loop_states_run (h : Host) (n : nat) :
  forall (L R : Z) (g : Globals),
  (n <= 8)%nat -> Rot2_state_ok g -> length (K g) = 16%nat ->
  halfword_pair h (L, R) ->
  exists states g',
    Encrypt_loop_states h (S n) (8 - Z.of_nat n) L R g = Some (states, g') /\
    length states = n /\ Forall (halfword_pair h) states /\
    List.last states (L, R)
    = fold_left (encrypt_round h) (drop (8 - n) (take 8 (K g))) (L, R) /\
    schedule_of g' = schedule_of g /\ Rot2_state_ok g'.
Proof.
  induction n as [|n IH]; intros L R g Hn Hg HK HLR.
  - exists [], g. rewrite Encrypt_loop_states_S.
    change (8 - Z.of_nat 0 <? 8) with false. cbv iota.
    rewrite drop_ge by (rewrite length_take; lia).
    repeat split; try reflexivity; try apply Forall_nil_2; apply Hg.
  - assert (Hr : Z.to_nat (8 - Z.of_nat (S n)) = (8 - S n)%nat) by lia.
    set (LR1 := encrypt_round h (L, R) (subkey (K g) (8 - S n))).
    assert (H1 : halfword_pair h LR1)
      by (apply encrypt_round_is_halfword; apply HLR).
    destruct (IH LR1.1 LR1.2 (Rot2_done g))
      as (rest & g' & Hrun & Hlen & Hall & Hlast & Hks & Hok);
      [lia | apply Rot2_done_ok | exact HK | exact H1 |].
    exists (LR1 :: rest), g'.
    split; [|split; [|split; [|split; [|split]]]].
    + rewrite Encrypt_loop_states_S.
      destruct (Z.ltb_spec (8 - Z.of_nat (S n)) 8) as [_|]; [|lia].
      erewrite bind_run by (apply Encrypt_round_run; [exact Hg | lia]).
      rewrite Hr. fold LR1.
      replace (8 - Z.of_nat (S n) + 1) with (8 - Z.of_nat n) by lia.
      erewrite bind_run by exact Hrun. reflexivity.
    + cbn [length]. by rewrite Hlen.
    + by apply Forall_cons_2.
    + rewrite last_cons_default, <- surjective_pairing in *.
      rewrite Hlast. cbn [K Rot2_done set_Rot2].
      rewrite (drop_S (take 8 (K g)) (subkey (K g) (8 - S n)) (8 - S n))
        by (rewrite lookup_take_lt by lia; apply lookup_subkey; lia).
      replace (S (8 - S n)) with (8 - n)%nat by lia.
      reflexivity.
    + exact Hks.
    + exact Hok.
Qed.

Lemma Decrypt_loop_states_run (h : Host) (n : nat) :
  forall (L R : Z) (g : Globals),
  (n <= 8)%nat -> Rot2_state_ok g -> length (K g) = 16%nat ->
  halfword_pair h (L, R) ->
  exists states g',
    Decrypt_loop_states h (S n) (Z.of_nat n - 1) L R g = Some (states, g') /\
    length states = n /\ Forall (halfword_pair h) states /\
    List.last states (L, R)
    = fold_left (decrypt_round h) (rev (take n (K g))) (L, R) /\
    schedule_of g' = schedule_of g /\ Rot2_state_ok g'.
Proof.
  induction n as [|n IH]; intros L R g Hn Hg HK HLR.
  - exists [], g. rewrite Decrypt_loop_states_S.
    change (Z.of_nat 0 - 1 >=? 0) with false. cbv iota.
    repeat split; try reflexivity; try apply Forall_nil_2; apply Hg.
  - assert (Hr : Z.to_nat (Z.of_nat (S n) - 1) = n) by lia.
    set (LR1 := decrypt_round h (L, R) (subkey (K g) n)).
    assert (H1 : halfword_pair h LR1)
      by (apply decrypt_round_is_halfword; apply HLR).
    destruct (IH LR1.1 LR1.2 (Rot2_done g))
      as (rest & g' & Hrun & Hlen & Hall & Hlast & Hks & Hok);
      [lia | apply Rot2_done_ok | exact HK | exact H1 |].
    exists (LR1 :: rest), g'.
    split; [|split; [|split; [|split; [|split]]]].
    + rewrite Decrypt_loop_states_S.
      destruct (Z.geb_spec (Z.of_nat (S n) - 1) 0) as [_|]; [|lia].
      erewrite bind_run by (apply Decrypt_round_run; [exact Hg | lia]).
      rewrite Hr. fold LR1.
      replace (Z.of_nat (S n) - 1 - 1) with (Z.of_nat n - 1) by lia.
      erewrite bind_run by exact Hrun. reflexivity.
    + cbn [length]. by rewrite Hlen.
    + by apply Forall_cons_2.
    + rewrite last_cons_default, <- surjective_pairing in *.
      rewrite Hlast. cbn [K Rot2_done set_Rot2].
      rewrite (take_S_r (K g) n (subkey (K g) n)) by (apply lookup_subkey; lia).
      rewrite rev_app_distr. reflexivity.
    + exact Hks.
    + exact Hok.
Qed.

Lemma Encrypt_states_run (h : Host) (block Cipher : list Z) (g : Globals) :
  length block = 8%nat -> Forall is_byte block -> length Cipher = 8%nat ->
  Rot2_state_ok g -> schedule_ok h (schedule_of g) ->
  exists states g1 c g2,
    Encrypt_states h block g = Some (states, g1) /\
    length states = 15%nat /\ Forall (halfword_pair h) states /\
    Encrypt h block Cipher g = Some (c, g2) /\
    c = unpack_H h (List.last states (0, 0)).2 ++ unpack_H h (List.last states (0, 0)).1.
Proof.
  intros Hb Hbb HC Hg (HK & H89 & H1011 & H1213 & H1415).
  cbn [schedule_of ks_K ks_K89 ks_K1011 ks_K1213 ks_K1415] in HK, H89, H1011, H1213, H1415.
  destruct (Encrypt_run h block [] Cipher g Hb HC Hg HK) as (g2 & Henc & _ & _).
  rewrite app_nil_r in Henc.
  destruct block as [|p0 [|p1 [|p2 [|p3 [|p4 [|p5 [|p6 [|p7 [|]]]]]]]]]; try discriminate.
  assert (HbL : Forall is_byte [p0; p1; p2; p3]) by exact (Forall_take is_byte 4%nat _ Hbb).
  assert (HbR : Forall is_byte [p4; p5; p6; p7]) by exact (Forall_drop is_byte 4%nat _ Hbb).
  set (PL := pack_H h [p0; p1; p2; p3]). set (PR := pack_H h [p4; p5; p6; p7]).
  assert (HPL : is_halfword h PL) by (by apply pack_H_is_halfword).
  assert (HPR : is_halfword h PR) by (by apply pack_H_is_halfword).
  set (L0 := Z.lxor PL (K89 g)).
  set (R0 := Z.lxor (Z.lxor PR (K1011 g)) L0).
  assert (HL0 : is_halfword h L0) by (by apply is_halfword_lxor).
  assert (HR1 : is_halfword h (Z.lxor PR (K1011 g))) by (by apply is_halfword_lxor).
  assert (HR0 : is_halfword h R0) by (by apply is_halfword_lxor).
  destruct (Encrypt_loop_states_run h 8 L0 R0 g)
    as (rounds & g1 & Hrun & Hlen & Hall & Hlast & Hks & Hok);
    [lia | assumption | assumption | by split |].
  change (8 - Z.of_nat 8) with 0 in Hrun.
  change (drop (8 - 8) ?l) with l in Hlast.
  destruct (encrypt_rounds_is_halfword h (take 8 (K g)) (L0, R0) HL0 HR0) as [HL8 HR8].
  rewrite <- Hlast in HL8, HR8.
  injection Hks as _ _ _ E1213 E1415.
  eexists _, g1, _, g2. split; [|split; [|split; [|split]]].
  - unfold Encrypt_states.
    erewrite bind_run by (apply MakeH1_run; reflexivity).
    erewrite bind_run by (apply MakeH1_run; reflexivity).
    erewrite bind_run by apply gets_run.
    erewrite bind_run by apply gets_run.
    cbv zeta. fold PL. fold PR. fold L0. fold R0.
    erewrite bind_run by exact Hrun.
    erewrite bind_run by apply gets_run.
    erewrite bind_run by apply gets_run.
    rewrite E1213, E1415. reflexivity.
  - cbn [app length]. rewrite length_app, Hlen. reflexivity.
  - repeat apply Forall_cons_2; try (by split).
    apply Forall_app_2; [exact Hall|].
    repeat apply Forall_cons_2; try apply Forall_nil_2; split; cbn [fst snd];
      repeat apply is_halfword_lxor; assumption.
  - exact Henc.
  - cbn [app]. rewrite !last_cons_default, last_app_cons. cbn [List.last fst snd].
    unfold encrypt_spec. cbn [take drop schedule_of ks_K ks_K89 ks_K1011 ks_K1213 ks_K1415].
    fold PL. fold PR. fold L0. fold R0. rewrite Hlast. reflexivity.
Qed.

Lemma Decrypt_states_run (h : Host) (block Plain : list Z) (g : Globals) :
  length block = 8%nat -> Forall is_byte block -> length Plain = 8%nat ->
  Rot2_state_ok g -> schedule_ok h (schedule_of g) ->
  exists states g1 p g2,
    Decrypt_states h block g = Some (states, g1) /\
    length states = 15%nat /\ Forall (halfword_pair h) states /\
    Decrypt h block Plain g = Some (p, g2) /\
    p = unpack_H h (List.last states (0, 0)).1 ++ unpack_H h (List.last states (0, 0)).2.
Proof.
  intros Hb Hbb HP Hg (HK & H89 & H1011 & H1213 & H1415).
  cbn [schedule_of ks_K ks_K89 ks_K1011 ks_K1213 ks_K1415] in HK, H89, H1011, H1213, H1415.
  destruct (Decrypt_run h block [] Plain g Hb HP Hg HK) as (g2 & Hdec & _ & _).
  rewrite app_nil_r in Hdec.
  destruct block as [|c0 [|c1 [|c2 [|c3 [|c4 [|c5 [|c6 [|c7 [|]]]]]]]]]; try discriminate.
  assert (HbR : Forall is_byte [c0; c1; c2; c3]) by exact (Forall_take is_byte 4%nat _ Hbb).
  assert (HbL : Forall is_byte [c4; c5; c6; c7]) by exact (Forall_drop is_byte 4%nat _ Hbb).
  set (CR := pack_H h [c0; c1; c2; c3]). set (CL := pack_H h [c4; c5; c6; c7]).
  assert (HCR : is_halfword h CR) by (by apply pack_H_is_halfword).
  assert (HCL : is_halfword h CL) by (by apply pack_H_is_halfword).
  set (R0 := Z.lxor CR (K1213 g)).
  set (L0 := Z.lxor (Z.lxor CL (K1415 g)) R0).
  assert (HR0 : is_halfword h R0) by (by apply is_halfword_lxor).
  assert (HL1 : is_halfword h (Z.lxor CL (K1415 g))) by (by apply is_halfword_lxor).
  assert (HL0 : is_halfword h L0) by (by apply is_halfword_lxor).
  destruct (Decrypt_loop_states_run h 8 L0 R0 g)
    as (rounds & g1 & Hrun & Hlen & Hall & Hlast & Hks & Hok);
    [lia | assumption | assumption | by split |].
  change (Z.of_nat 8 - 1) with 7 in Hrun.
  destruct (decrypt_rounds_is_halfword h (rev (take 8 (K g))) (L0, R0) HL0 HR0) as [HL8 HR8].
  rewrite <- Hlast in HL8, HR8.
  injection Hks as _ E89 E1011 _ _.
  eexists _, g1, _, g2. split; [|split; [|split; [|split]]].
  - unfold Decrypt_states.
    erewrite bind_run by (apply MakeH1_run; reflexivity).
    erewrite bind_run by (apply MakeH1_run; reflexivity).
    erewrite bind_run by apply gets_run.
    erewrite bind_run by apply gets_run.
    cbv zeta. fold CR. fold CL. fold R0. fold L0.
    erewrite bind_run by exact Hrun.
    erewrite bind_run by apply gets_run.
    erewrite bind_run by apply gets_run.
    rewrite E89, E1011. reflexivity.
  - cbn [app length]. rewrite length_app, Hlen. reflexivity.
  - repeat apply Forall_cons_2; try (by split).
    apply Forall_app_2; [exact Hall|].
    repeat apply Forall_cons_2; try apply Forall_nil_2; split; cbn [fst snd];
      repeat apply is_halfword_lxor; assumption.
  - exact Hdec.
  - cbn [app]. rewrite !last_cons_default, last_app_cons. cbn [List.last fst snd].
    unfold decrypt_spec. cbn [take drop schedule_of ks_K ks_K89 ks_K1011 ks_K1213 ks_K1415].
    fold CR. fold CL. fold R0. fold L0. rewrite Hlast. reflexivity.
Qed.

Lemma halfword_pair_below_2_32 (dm : DataModel) (LR : Z * Z) :
  halfword_pair (mkHost LittleEndian dm) LR -> below_2_32 LR.
Proof. intros [HL HR]. split; by apply (is_halfword_little_endian dm). Qed.

(** C8 (as the code has it). On a little-endian host, with 4-byte and with
    8-byte [unsigned long]: [MakeH1], [f] and [FK] return values below
    [2^32]; after [SetKey], [K89], [K1011], [K1213], [K1415] are below
    [2^32] and each of the sixteen [K[i]] is below [2^16]; and in [Encrypt]
    and in [Decrypt] run with that key, the fifteen pairs of values [L] and
    [R] hold in turn (after the two [MakeH1], after each whitening
    statement, after each of the eight rounds) are all below [2^32], the
    last pair being the one whose bytes the call writes out. *)
Theorem C8_halfwords_below_2_32
    (dm : DataModel) (key block out : list Z) (A B : Z) (g : Globals) :
  length key = 8%nat -> Forall is_byte key ->
  length block = 8%nat -> Forall is_byte block -> length out = 8%nat ->
  Rot2_state_ok g -> length (K g) = 16%nat ->
  (exists v, MakeH1 (mkHost LittleEndian dm) block 0 g = Some (v, g) /\ 0 <= v < 2 ^ 32) /\
  (exists v, MakeH1 (mkHost LittleEndian dm) block 4 g = Some (v, g) /\ 0 <= v < 2 ^ 32) /\
  (exists v g', f (mkHost LittleEndian dm) A B g = Some (v, g') /\ 0 <= v < 2 ^ 32) /\
  (exists v g', FK (mkHost LittleEndian dm) A B g = Some (v, g') /\ 0 <= v < 2 ^ 32) /\
  exists g1,
    SetKey (mkHost LittleEndian dm) key g = Some (tt, g1) /\
    0 <= K89 g1 < 2 ^ 32 /\ 0 <= K1011 g1 < 2 ^ 32 /\
    0 <= K1213 g1 < 2 ^ 32 /\ 0 <= K1415 g1 < 2 ^ 32 /\
    length (K g1) = 16%nat /\ Forall (fun k => 0 <= k < 2 ^ 16) (K g1) /\
    (exists states g2 c g3,
       Encrypt_states (mkHost LittleEndian dm) block g1 = Some (states, g2) /\
       length states = 15%nat /\ Forall below_2_32 states /\
       Encrypt (mkHost LittleEndian dm) block out g1 = Some (c, g3) /\
       c = unpack_H (mkHost LittleEndian dm) (List.last states (0, 0)).2
           ++ unpack_H (mkHost LittleEndian dm) (List.last states (0, 0)).1) /\
    (exists states g2 p g3,
       Decrypt_states (mkHost LittleEndian dm) block g1 = Some (states, g2) /\
       length states = 15%nat /\ Forall below_2_32 states /\
       Decrypt (mkHost LittleEndian dm) block out g1 = Some (p, g3) /\
       p = unpack_H (mkHost LittleEndian dm) (List.last states (0, 0)).1
           ++ unpack_H (mkHost LittleEndian dm) (List.last states (0, 0)).2).
Proof.
  intros Hk Hkb Hb Hbb Ho Hg HK.
  set (h := mkHost LittleEndian dm).
  assert (Hhw : forall v, is_halfword h v -> 0 <= v < 2 ^ 32)
    by (intros v; apply is_halfword_little_endian).
  split; [|split; [|split; [|split]]].
  - destruct block as [|p0 [|p1 [|p2 [|p3 [|p4 [|p5 [|p6 [|p7 [|]]]]]]]]]; try discriminate.
    eexists. split; [apply MakeH1_run; reflexivity|].
    apply Hhw, pack_H_is_halfword; [reflexivity|].
    exact (Forall_take is_byte 4%nat _ Hbb).
  - destruct block as [|p0 [|p1 [|p2 [|p3 [|p4 [|p5 [|p6 [|p7 [|]]]]]]]]]; try discriminate.
    eexists. split; [apply MakeH1_run; reflexivity|].
    apply Hhw, pack_H_is_halfword; [reflexivity|].
    exact (Forall_drop is_byte 4%nat _ Hbb).
  - eexists _, _. split; [by apply f_run|]. apply Hhw, f_host_is_halfword.
  - eexists _, _. split; [by apply FK_run|]. apply Hhw, FK_host_is_halfword.
  - destruct (SetKey_run h key [] g Hk Hkb Hg HK) as (g1 & Hset & Hks & Hok).
    rewrite app_nil_r in Hset.
    pose proof (derive_schedule_ok h key) as Hsok. rewrite <- Hks in Hsok.
    pose proof Hsok as (Hlen & H89 & H1011 & H1213 & H1415).
    cbn [schedule_of ks_K ks_K89 ks_K1011 ks_K1213 ks_K1415] in Hlen, H89, H1011, H1213, H1415.
    exists g1. split; [exact Hset|].
    do 4 (split; [by apply Hhw|]).
    split; [exact Hlen|]. split; [|split].
    + change (K g1) with (ks_K (schedule_of g1)). rewrite Hks.
      unfold derive_schedule. cbn [ks_K].
      eapply Forall_impl; [apply schedule_rounds_quarterwords|].
      intros k. apply is_quarterword_little_endian.
    + destruct (Encrypt_states_run h block out g1 Hb Hbb Ho Hok Hsok)
        as (states & g2 & c & g3 & Hst & Hl & Hall & Henc & Hc).
      exists states, g2, c, g3. repeat (split; [assumption|]).
      split; [|split; assumption].
      eapply Forall_impl; [exact Hall|]. apply halfword_pair_below_2_32.
    + destruct (Decrypt_states_run h block out g1 Hb Hbb Ho Hok Hsok)
        as (states & g2 & p & g3 & Hst & Hl & Hall & Hdec & Hp).
      exists states, g2, p, g3. repeat (split; [assumption|]).
      split; [|split; assumption].
      eapply Forall_impl; [exact Hall|]. apply halfword_pair_below_2_32.
Qed.

Lemma C8_halfwords_witness :
  (exists v, MakeH1 (mkHost LittleEndian LP64) main_plain 0 initial_globals
             = Some (v, initial_globals) /\ 0 <= v < 2 ^ 32) /\
  (exists v, MakeH1 (mkHost LittleEndian LP64) main_plain 4 initial_globals
             = Some (v, initial_globals) /\ 0 <= v < 2 ^ 32) /\
  (exists v g', f (mkHost LittleEndian LP64) 4294967295 65535 initial_globals
                = Some (v, g') /\ 0 <= v < 2 ^ 32) /\
  (exists v g', FK (mkHost LittleEndian LP64) 4294967295 65535 initial_globals
                = Some (v, g') /\ 0 <= v < 2 ^ 32) /\
  exists g1,
    SetKey (mkHost LittleEndian LP64) main_key initial_globals = Some (tt, g1) /\
    0 <= K89 g1 < 2 ^ 32 /\ 0 <= K1011 g1 < 2 ^ 32 /\
    0 <= K1213 g1 < 2 ^ 32 /\ 0 <= K1415 g1 < 2 ^ 32 /\
    length (K g1) = 16%nat /\ Forall (fun k => 0 <= k < 2 ^ 16) (K g1) /\
    (exists states g2 c g3,
       Encrypt_states (mkHost LittleEndian LP64) main_plain g1 = Some (states, g2) /\
       length states = 15%nat /\ Forall below_2_32 states /\
       Encrypt (mkHost LittleEndian LP64) main_plain (replicate 8 0) g1 = Some (c, g3) /\
       c = unpack_H (mkHost LittleEndian LP64) (List.last states (0, 0)).2
           ++ unpack_H (mkHost LittleEndian LP64) (List.last states (0, 0)).1) /\
    (exists states g2 p g3,
       Decrypt_states (mkHost LittleEndian LP64) main_plain g1 = Some (states, g2) /\
       length states = 15%nat /\ Forall below_2_32 states /\
       Decrypt (mkHost LittleEndian LP64) main_plain (replicate 8 0) g1 = Some (p, g3) /\
       p = unpack_H (mkHost LittleEndian LP64) (List.last states (0, 0)).1
           ++ unpack_H (mkHost LittleEndian LP64) (List.last states (0, 0)).2).
Proof.
  apply (C8_halfwords_below_2_32 LP64 main_key main_plain (replicate 8 0)
           4294967295 65535 initial_globals).
  - reflexivity.
  - unfold main_key, is_byte. repeat constructor; lia.
  - reflexivity.
  - unfold main_plain, is_byte. repeat constructor; lia.
  - reflexivity.
  - exact Rot2_initial_ok.
  - reflexivity.
Defined.

(** C8, the claim as stated fails: on the LP64 big-endian host the four
    bytes of a halfword overlay the high half of the [unsigned long], so
    [MakeH1] of the bytes 1, 0, 0, 0 is [2^56], and the two bytes of a
    subkey overlay the high half of the [unsigned int], so after [SetKey]
    on the key of the test harness [K[0]] is 3745185792: neither is below
    its bound. *)
Lemma C8_big_endian_counterexample :
  MakeH1 lp64_be [1; 0; 0; 0] 0 initial_globals = Some (2 ^ 56, initial_globals) /\
  2 ^ 32 <= 2 ^ 56 /\
  option_map (fun r => subkey (K r.2) 0) (SetKey lp64_be main_key initial_globals)
  = Some 3745185792 /\
  2 ^ 16 <= 3745185792.
Proof.
  split; [reflexivity|]. split; [lia|]. split; [vm_compute; reflexivity | lia].
Qed.

(** The states [Encrypt] and [Decrypt] pass through in the test harness, on
    the LP64 little-endian host. *)
Example Encrypt_states_main :
  option_map fst
    (bind (SetKey lp64_le main_key) (fun _ => Encrypt_states lp64_le main_plain)
       initial_globals)
  = Some [(0, 0); (3085707915, 0); (3085707915, 1285378220);
          (3085707915, 4218518055); (4218518055, 3219847764);
          (3219847764, 2422954490); (2422954490, 3458306497);
          (3458306497, 1855676433); (1855676433, 4005070685);
          (4005070685, 742045633); (742045633, 4200644278);
          (4200644278, 493560556); (3876297818, 493560556);
          (3876297818, 2251091918); (1376209394, 2251091918)].
Proof. vm_compute. reflexivity. Qed.

(** C9. For every 8-byte input block, on every host, [Encrypt] and
    [Decrypt] return and leave the sixteen subkeys [K[0..15]] and the four
    whitening halfwords [K89], [K1011], [K1213], [K1415] as they were. *)
Theorem C9_key_schedule_unchanged (h : Host) (block out : list Z) (g : Globals) :
  length block = 8%nat -> length out = 8%nat ->
  Rot2_state_ok g -> length (K g) = 16%nat ->
  (exists c g', Encrypt h block out g = Some (c, g') /\
     K g' = K g /\ K89 g' = K89 g /\ K1011 g' = K1011 g /\
     K1213 g' = K1213 g /\ K1415 g' = K1415 g) /\
  (exists p g', Decrypt h block out g = Some (p, g') /\
     K g' = K g /\ K89 g' = K89 g /\ K1011 g' = K1011 g /\
     K1213 g' = K1213 g /\ K1415 g' = K1415 g).
Proof.
  intros Hb Ho Hg HK. split.
  - destruct (Encrypt_run h block [] out g Hb Ho Hg HK) as (g' & Henc & Hks & _).
    rewrite app_nil_r in Henc. eexists _, g'. split; [exact Henc|].
    injection Hks as -> -> -> -> ->. auto.
  - destruct (Decrypt_run h block [] out g Hb Ho Hg HK) as (g' & Hdec & Hks & _).
    rewrite app_nil_r in Hdec. eexists _, g'. split; [exact Hdec|].
    injection Hks as -> -> -> -> ->. auto.
Qed.

Lemma C9_key_schedule_witness :
  (exists c g', Encrypt lp64_le main_plain (replicate 8 0) initial_globals = Some (c, g') /\
     K g' = K initial_globals /\ K89 g' = K89 initial_globals /\
     K1011 g' = K1011 initial_globals /\
     K1213 g' = K1213 initial_globals /\ K1415 g' = K1415 initial_globals) /\
  (exists p g', Decrypt lp64_le main_plain (replicate 8 0) initial_globals = Some (p, g') /\
     K g' = K initial_globals /\ K89 g' = K89 initial_globals /\
     K1011 g' = K1011 initial_globals /\
     K1213 g' = K1213 initial_globals /\ K1415 g' = K1415 initial_globals).
Proof.
  apply (C9_key_schedule_unchanged lp64_le main_plain (replicate 8 0) initial_globals).
  - reflexivity.
  - reflexivity.
  - exact Rot2_initial_ok.
  - reflexivity.
Defined.

(** ** No length check *)

Lemma SetKey_prefix (h : Host) (key extra : list Z) (g : Globals) :
  length key = 8%nat -> SetKey h (key ++ extra) g = SetKey h key g.
Proof.
  intros Hk.
  destruct key as [|k0 [|k1 [|k2 [|k3 [|k4 [|k5 [|k6 [|k7 [|]]]]]]]]]; try discriminate.
  unfold SetKey.
  do 8 (erewrite bind_run by (apply deref_run; reflexivity)).
  symmetry.
  do 8 (erewrite bind_run by (apply deref_run; reflexivity)).
  reflexivity.
Qed.

Lemma Encrypt_prefix (h : Host) (block extra Cipher : list Z) (g : Globals) :
  length block = 8%nat -> Encrypt h (block ++ extra) Cipher g = Encrypt h block Cipher g.
Proof.
  intros Hb.
  destruct block as [|p0 [|p1 [|p2 [|p3 [|p4 [|p5 [|p6 [|p7 [|]]]]]]]]]; try discriminate.
  unfold Encrypt.
  do 2 (erewrite bind_run by (apply MakeH1_run; reflexivity)).
  symmetry.
  do 2 (erewrite bind_run by (apply MakeH1_run; reflexivity)).
  reflexivity.
Qed.

Lemma Decrypt_prefix (h : Host) (block extra Plain : list Z) (g : Globals) :
  length block = 8%nat -> Decrypt h (block ++ extra) Plain g = Decrypt h block Plain g.
Proof.
  intros Hb.
  destruct block as [|p0 [|p1 [|p2 [|p3 [|p4 [|p5 [|p6 [|p7 [|]]]]]]]]]; try discriminate.
  unfold Decrypt.
  do 2 (erewrite bind_run by (apply MakeH1_run; reflexivity)).
  symmetry.
  do 2 (erewrite bind_run by (apply MakeH1_run; reflexivity)).
  reflexivity.
Qed.

(** C10 (as the code has it). [SetKey], [Encrypt] and [Decrypt] take a
    pointer and make no length check, and there is no error result: given
    an array that starts with the 8 bytes of a key or block and continues
    with any further bytes, on every host, they return, and return exactly
    what they return for the 8-byte array; the further bytes are ignored. *)
Theorem C10_no_length_check
    (h : Host) (key block extra out : list Z) (g : Globals) :
  length key = 8%nat -> Forall is_byte key ->
  length block = 8%nat -> length out = 8%nat ->
  Rot2_state_ok g -> length (K g) = 16%nat ->
  (exists g', SetKey h (key ++ extra) g = Some (tt, g') /\
              SetKey h key g = Some (tt, g')) /\
  (exists c g', Encrypt h (block ++ extra) out g = Some (c, g') /\
                Encrypt h block out g = Some (c, g')) /\
  (exists p g', Decrypt h (block ++ extra) out g = Some (p, g') /\
                Decrypt h block out g = Some (p, g')).
Proof.
  intros Hk Hkb Hb Ho Hg HK. split; [|split].
  - destruct (SetKey_run h key extra g Hk Hkb Hg HK) as (g' & Hset & _ & _).
    exists g'. split; [exact Hset|]. by rewrite <- (SetKey_prefix h key extra g).
  - destruct (Encrypt_run h block extra out g Hb Ho Hg HK) as (g' & Henc & _ & _).
    eexists _, g'. split; [exact Henc|]. by rewrite <- (Encrypt_prefix h block extra out g).
  - destruct (Decrypt_run h block extra out g Hb Ho Hg HK) as (g' & Hdec & _ & _).
    eexists _, g'. split; [exact Hdec|]. by rewrite <- (Decrypt_prefix h block extra out g).
Qed.

Lemma C10_no_length_check_witness :
  (exists g', SetKey lp64_le (main_key ++ [255; 254]) initial_globals = Some (tt, g') /\
              SetKey lp64_le main_key initial_globals = Some (tt, g')) /\
  (exists c g', Encrypt lp64_le (main_plain ++ [255; 254]) (replicate 8 0) initial_globals
                = Some (c, g') /\
                Encrypt lp64_le main_plain (replicate 8 0) initial_globals = Some (c, g')) /\
  (exists p g', Decrypt lp64_le (main_plain ++ [255; 254]) (replicate 8 0) initial_globals
                = Some (p, g') /\
                Decrypt lp64_le main_plain (replicate 8 0) initial_globals = Some (p, g')).
Proof.
  apply (C10_no_length_check lp64_le main_key main_plain [255; 254] (replicate 8 0)
           initial_globals).
  - reflexivity.
  - unfold main_key, is_byte. repeat constructor; lia.
  - reflexivity.
  - reflexivity.
  - exact Rot2_initial_ok.
  - reflexivity.
Defined.

(** C10, the claim as stated fails: a 9-byte key is not rejected, [SetKey]
    returns for it what it returns for its first 8 bytes. *)
Lemma C10_length_counterexample :
  length (main_key ++ [255]) = 9%nat /\
  exists g',
    SetKey lp64_le (main_key ++ [255]) initial_globals = Some (tt, g') /\
    SetKey lp64_le main_key initial_globals = Some (tt, g').
Proof.
  split; [reflexivity|].
  destruct (SetKey_run lp64_le main_key [255] initial_globals) as (g' & Hset & _ & _).
  - reflexivity.
  - unfold main_key, is_byte. repeat constructor; lia.
  - exact Rot2_initial_ok.
  - reflexivity.
  - exists g'. split; [exact Hset|].
    by rewrite <- (SetKey_prefix lp64_le main_key [255] initial_globals).
Qed.

(** * Further properties of the code *)

(** ** Words and their bytes *)

Lemma Byte_padded (bs : list Z) (n i : nat) :
  (i < length bs)%nat -> Byte (bs ++ replicate n 0) i = Byte bs i.
Proof. intros Hi. unfold Byte. by rewrite lookup_app_l by assumption. Qed.

Lemma halfword_byte_pack (h : Host) (bs : list Z) (i : nat) :
  bytes4 bs -> (i < 4)%nat -> halfword_byte h (pack_H h bs) i = Byte bs i.
Proof.
  intros [Hl Hb] Hi. unfold halfword_byte. rewrite store_pack_H by assumption.
  apply Byte_padded. lia.
Qed.

Lemma quarterword_byte_pack (h : Host) (bs : list Z) (i : nat) :
  bytes2 bs -> (i < 2)%nat -> quarterword_byte h (pack_Q h bs) i = Byte bs i.
Proof.
  intros [Hl Hb] Hi. unfold quarterword_byte. rewrite store_pack_Q by assumption.
  apply (Byte_padded bs 2). lia.
Qed.

Lemma pack_H_lxor (h : Host) (a b : list Z) :
  bytes4 a -> bytes4 b ->
  Z.lxor (pack_H h a) (pack_H h b) = pack_H h (xor_bytes a b).
Proof.
  intros [Hla Hba] [Hlb Hbb]. unfold pack_H, xor_bytes.
  rewrite length_zip_with, Hla, Hlb.
  rewrite load_All_lxor
    by (rewrite ?length_app, ?length_replicate; auto using padded_bytes; lia).
  rewrite zip_with_lxor_padded by lia. reflexivity.
Qed.

Lemma xor_bytes4 (a b : list Z) : bytes4 a -> bytes4 b -> bytes4 (xor_bytes a b).
Proof.
  intros [Hla Hba] [Hlb Hbb]. split.
  - unfold xor_bytes. rewrite length_zip_with. lia.
  - by apply zip_with_lxor_bytes.
Qed.

Lemma f_on_bytes4 (a b : list Z) : bytes4 (f_on_bytes a b).
Proof. apply f_bytes_ok. Qed.

Lemma FK_on_bytes4 (a b : list Z) : bytes4 (FK_on_bytes a b).
Proof. apply FK_bytes_ok. Qed.

Lemma f_host_pack (h : Host) (a b : list Z) :
  bytes4 a -> bytes2 b ->
  f_host h (pack_H h a) (pack_Q h b) = pack_H h (f_on_bytes a b).
Proof.
  intros Ha Hb. unfold f_host, f_on_bytes.
  rewrite !halfword_byte_pack, !quarterword_byte_pack by (assumption || lia).
  reflexivity.
Qed.

Lemma FK_host_pack (h : Host) (a b : list Z) :
  bytes4 a -> bytes4 b ->
  FK_host h (pack_H h a) (pack_H h b) = pack_H h (FK_on_bytes a b).
Proof.
  intros Ha Hb. unfold FK_host, FK_on_bytes.
  rewrite !halfword_byte_pack by (assumption || lia).
  reflexivity.
Qed.

Lemma Byte_of_bytes (l : list Z) (i : nat) : Forall is_byte l -> is_byte (Byte l i).
Proof. apply Byte_is_byte. Qed.

Lemma pair_bytes2 (l : list Z) (i j : nat) :
  Forall is_byte l -> bytes2 [Byte l i; Byte l j].
Proof. intros Hl. split; [reflexivity|]. bytes_of_list. Qed.

Lemma schedule_rounds_pack (h : Host) (n : nat) (A B D : list Z) :
  bytes4 A -> bytes4 B -> bytes4 D ->
  schedule_rounds h n (pack_H h A) (pack_H h B) (pack_H h D)
  = map (pack_Q h) (schedule_bytes n A B D).
Proof.
  revert A B D. induction n as [|n IH]; intros A B D HA HB HD; [reflexivity|].
  cbn [schedule_rounds schedule_bytes map].
  rewrite pack_H_lxor, FK_host_pack by auto using xor_bytes4.
  pose proof (FK_on_bytes4 A (xor_bytes B D)) as HN.
  rewrite !halfword_byte_pack by (assumption || lia).
  rewrite IH by assumption. reflexivity.
Qed.

Lemma schedule_bytes_ok (n : nat) (A B D : list Z) :
  length (schedule_bytes n A B D) = (2 * n)%nat /\
  Forall bytes2 (schedule_bytes n A B D).
Proof.
  revert A B D. induction n as [|n IH]; intros A B D.
  - split; [reflexivity | apply Forall_nil_2].
  - destruct (IH B (FK_on_bytes A (xor_bytes B D)) A) as [Hl Hf].
    cbn [schedule_bytes]. split; [cbn [length]; rewrite Hl; lia|].
    pose proof (FK_on_bytes4 A (xor_bytes B D)) as [_ HN].
    repeat apply Forall_cons_2; [by apply pair_bytes2..|exact Hf].
Qed.

Lemma subkey_bytes2 (Ks : list (list Z)) (i : nat) :
  Forall bytes2 Ks -> bytes2 (subkey_bytes Ks i).
Proof.
  intros HK. unfold subkey_bytes. destruct (Ks !! i) as [k|] eqn:E; cbn [default].
  - eapply Forall_lookup_1; eauto.
  - split; [reflexivity|]. repeat apply Forall_cons_2; try apply Forall_nil_2;
      unfold is_byte; lia.
Qed.

Lemma subkey_map_pack (h : Host) (Ks : list (list Z)) (i : nat) :
  (i < length Ks)%nat ->
  subkey (map (pack_Q h) Ks) i = pack_Q h (subkey_bytes Ks i).
Proof.
  intros Hi. unfold subkey, subkey_bytes. rewrite list_lookup_fmap.
  destruct (lookup_lt_is_Some_2 Ks i Hi) as [k ->]. reflexivity.
Qed.

Lemma halfword_from_two_quarterwords_pack (h : Host) (q0 q1 : list Z) :
  bytes2 q0 -> bytes2 q1 ->
  halfword_from_two_quarterwords h (pack_Q h q0) (pack_Q h q1) = pack_H h (q0 ++ q1).
Proof.
  intros [Hl0 Hb0] [Hl1 Hb1]. unfold halfword_from_two_quarterwords.
  by rewrite !unpack_pack_Q.
Qed.

Lemma bytes2_app (q0 q1 : list Z) : bytes2 q0 -> bytes2 q1 -> bytes4 (q0 ++ q1).
Proof.
  intros [Hl0 Hb0] [Hl1 Hb1]. split.
  - rewrite length_app. lia.
  - by apply Forall_app_2.
Qed.

Lemma pack_H_zero (h : Host) : pack_H h [0; 0; 0; 0] = 0.
Proof. destruct h as [[] []]; reflexivity. Qed.

Lemma derive_schedule_pack (h : Host) (key : list Z) :
  length key = 8%nat -> Forall is_byte key ->
  derive_schedule h key = schedule_of_bytes h (derive_schedule_bytes key).
Proof.
  intros Hl Hb.
  assert (HA : bytes4 (take 4 key))
    by (split; [rewrite length_take; lia | by apply Forall_take]).
  assert (HB : bytes4 (take 4 (drop 4 key)))
    by (split; [rewrite length_take, length_drop; lia | by apply Forall_take, Forall_drop]).
  assert (HD : bytes4 [0; 0; 0; 0])
    by (split; [reflexivity|]; repeat apply Forall_cons_2; try apply Forall_nil_2;
        unfold is_byte; lia).
  destruct (schedule_bytes_ok 8 (take 4 key) (take 4 (drop 4 key)) [0; 0; 0; 0]) as [HlK HfK].
  pose proof (schedule_rounds_pack h 8 _ _ _ HA HB HD) as HKs.
  rewrite pack_H_zero in HKs.
  unfold derive_schedule, derive_schedule_bytes, schedule_of_bytes.
  cbn [kb_K kb_K89 kb_K1011 kb_K1213 kb_K1415]. rewrite HKs.
  set (Ks := schedule_bytes 8 (take 4 key) (take 4 (drop 4 key)) [0; 0; 0; 0]) in *.
  rewrite !subkey_map_pack by lia.
  rewrite !halfword_from_two_quarterwords_pack by by apply subkey_bytes2.
  reflexivity.
Qed.

(** ** The Feistel rounds on bytes *)

Lemma encrypt_round_pack (h : Host) (L R k : list Z) :
  bytes4 L -> bytes4 R -> bytes2 k ->
  encrypt_round h (pack_H h L, pack_H h R) (pack_Q h k)
  = (pack_H h (encrypt_round_bytes (L, R) k).1, pack_H h (encrypt_round_bytes (L, R) k).2).
Proof.
  intros HL HR Hk. unfold encrypt_round, encrypt_round_bytes. cbn [fst snd].
  rewrite f_host_pack, pack_H_lxor by auto using f_on_bytes4. reflexivity.
Qed.

Lemma decrypt_round_pack (h : Host) (L R k : list Z) :
  bytes4 L -> bytes4 R -> bytes2 k ->
  decrypt_round h (pack_H h L, pack_H h R) (pack_Q h k)
  = (pack_H h (decrypt_round_bytes (L, R) k).1, pack_H h (decrypt_round_bytes (L, R) k).2).
Proof.
  intros HL HR Hk. unfold decrypt_round, decrypt_round_bytes. cbn [fst snd].
  rewrite f_host_pack, pack_H_lxor by auto using f_on_bytes4. reflexivity.
Qed.

Lemma encrypt_rounds_pack (h : Host) (ks : list (list Z)) (L R : list Z) :
  Forall bytes2 ks -> bytes4 L -> bytes4 R ->
  fold_left (encrypt_round h) (map (pack_Q h) ks) (pack_H h L, pack_H h R)
  = (pack_H h (fold_left encrypt_round_bytes ks (L, R)).1,
     pack_H h (fold_left encrypt_round_bytes ks (L, R)).2) /\
  bytes4 (fold_left encrypt_round_bytes ks (L, R)).1 /\
  bytes4 (fold_left encrypt_round_bytes ks (L, R)).2.
Proof.
  intros Hks. revert L R. induction Hks as [|k ks Hk Hks IH]; intros L R HL HR.
  - by cbn.
  - cbn [map fold_left]. rewrite encrypt_round_pack by assumption.
    unfold encrypt_round_bytes at 3 6 9. cbn [fst snd].
    apply IH; [assumption|]. apply xor_bytes4; [assumption | apply f_on_bytes4].
Qed.

Lemma decrypt_rounds_pack (h : Host) (ks : list (list Z)) (L R : list Z) :
  Forall bytes2 ks -> bytes4 L -> bytes4 R ->
  fold_left (decrypt_round h) (map (pack_Q h) ks) (pack_H h L, pack_H h R)
  = (pack_H h (fold_left decrypt_round_bytes ks (L, R)).1,
     pack_H h (fold_left decrypt_round_bytes ks (L, R)).2) /\
  bytes4 (fold_left decrypt_round_bytes ks (L, R)).1 /\
  bytes4 (fold_left decrypt_round_bytes ks (L, R)).2.
Proof.
  intros Hks. revert L R. induction Hks as [|k ks Hk Hks IH]; intros L R HL HR.
  - by cbn.
  - cbn [map fold_left]. rewrite decrypt_round_pack by assumption.
    unfold decrypt_round_bytes at 3 6 9. cbn [fst snd].
    apply IH; [|assumption]. apply xor_bytes4; [assumption | apply f_on_bytes4].
Qed.

(** A byte-level schedule whose pieces have the right sizes. *)
Lemma derive_schedule_bytes_ok (key : list Z) :
  Forall bytes2 (kb_K (derive_schedule_bytes key)) /\
  bytes4 (kb_K89 (derive_schedule_bytes key)) /\
  bytes4 (kb_K1011 (derive_schedule_bytes key)) /\
  bytes4 (kb_K1213 (derive_schedule_bytes key)) /\
  bytes4 (kb_K1415 (derive_schedule_bytes key)).
Proof.
  unfold derive_schedule_bytes. cbn [kb_K kb_K89 kb_K1011 kb_K1213 kb_K1415].
  destruct (schedule_bytes_ok 8 (take 4 key) (take 4 (drop 4 key)) [0; 0; 0; 0]) as [_ HfK].
  split; [exact HfK|].
  repeat split; apply bytes2_app; by apply subkey_bytes2.
Qed.

Lemma block_halves (block : list Z) :
  length block = 8%nat -> Forall is_byte block ->
  bytes4 (take 4 block) /\ bytes4 (take 4 (drop 4 block)).
Proof.
  intros Hl Hb. split; split.
  - rewrite length_take. lia.
  - by apply Forall_take.
  - rewrite length_take, length_drop. lia.
  - by apply Forall_take, Forall_drop.
Qed.

Lemma encrypt_spec_bytes (h : Host) (kb : KeyScheduleBytes) (block : list Z) :
  Forall bytes2 (kb_K kb) -> bytes4 (kb_K89 kb) -> bytes4 (kb_K1011 kb) ->
  bytes4 (kb_K1213 kb) -> bytes4 (kb_K1415 kb) ->
  length block = 8%nat -> Forall is_byte block ->
  encrypt_spec h (schedule_of_bytes h kb) block = encrypt_bytes kb block.
Proof.
  intros HK H89 H1011 H1213 H1415 Hl Hb.
  destruct (block_halves block Hl Hb) as [HL HR].
  unfold encrypt_spec, encrypt_bytes, schedule_of_bytes.
  cbn [ks_K ks_K89 ks_K1011 ks_K1213 ks_K1415].
  rewrite !pack_H_lxor by auto using xor_bytes4.
  rewrite firstn_map.
  destruct (encrypt_rounds_pack h (take 8 (kb_K kb))
              (xor_bytes (take 4 block) (kb_K89 kb))
              (xor_bytes (xor_bytes (take 4 (drop 4 block)) (kb_K1011 kb))
                         (xor_bytes (take 4 block) (kb_K89 kb))))
    as (-> & HL8 & HR8); auto using xor_bytes4, Forall_take.
  cbn [fst snd].
  rewrite !pack_H_lxor by auto using xor_bytes4.
  rewrite !unpack_pack_H by (apply xor_bytes4; auto using xor_bytes4).
  reflexivity.
Qed.

Lemma decrypt_spec_bytes (h : Host) (kb : KeyScheduleBytes) (block : list Z) :
  Forall bytes2 (kb_K kb) -> bytes4 (kb_K89 kb) -> bytes4 (kb_K1011 kb) ->
  bytes4 (kb_K1213 kb) -> bytes4 (kb_K1415 kb) ->
  length block = 8%nat -> Forall is_byte block ->
  decrypt_spec h (schedule_of_bytes h kb) block = decrypt_bytes kb block.
Proof.
  intros HK H89 H1011 H1213 H1415 Hl Hb.
  destruct (block_halves block Hl Hb) as [HR HL].
  unfold decrypt_spec, decrypt_bytes, schedule_of_bytes.
  cbn [ks_K ks_K89 ks_K1011 ks_K1213 ks_K1415].
  rewrite !pack_H_lxor by auto using xor_bytes4.
  rewrite firstn_map, <- map_rev.
  destruct (decrypt_rounds_pack h (rev (take 8 (kb_K kb)))
              (xor_bytes (xor_bytes (take 4 (drop 4 block)) (kb_K1415 kb))
                         (xor_bytes (take 4 block) (kb_K1213 kb)))
              (xor_bytes (take 4 block) (kb_K1213 kb)))
    as (-> & HL8 & HR8); auto using xor_bytes4, Forall_take, Forall_rev.
  cbn [fst snd].
  rewrite !pack_H_lxor by auto using xor_bytes4.
  rewrite !unpack_pack_H by (apply xor_bytes4; auto using xor_bytes4).
  reflexivity.
Qed.

(** ** Encryption and decryption from any well-formed schedule *)

Lemma encrypt_decrypt_round (h : Host) (LR : Z * Z) (k : Z) :
  encrypt_round h (decrypt_round h LR k) k = LR.
Proof.
  destruct LR as [L R]. unfold decrypt_round, encrypt_round. cbn [fst snd].
  by rewrite lxor_cancel_r.
Qed.

Lemma fold_rounds_inverse_rev (h : Host) (ks : list Z) (LR : Z * Z) :
  fold_left (encrypt_round h) ks (fold_left (decrypt_round h) (rev ks) LR) = LR.
Proof.
  revert LR. induction ks as [|k ks IH]; intros LR; [reflexivity|].
  cbn [rev]. rewrite fold_left_app. cbn [fold_left].
  rewrite encrypt_decrypt_round. apply IH.
Qed.

Lemma encrypt_decrypt_spec (h : Host) (ks : KeySchedule) (c : list Z) :
  schedule_ok h ks -> length c = 8%nat -> Forall is_byte c ->
  encrypt_spec h ks (decrypt_spec h ks c) = c.
Proof.
  intros (_ & H89 & H1011 & H1213 & H1415) Hl Hb.
  destruct c as [|c0 [|c1 [|c2 [|c3 [|c4 [|c5 [|c6 [|c7 [|]]]]]]]]]; try discriminate.
  assert (HbR : Forall is_byte [c0; c1; c2; c3]) by exact (Forall_take is_byte 4%nat _ Hb).
  assert (HbL : Forall is_byte [c4; c5; c6; c7]) by exact (Forall_drop is_byte 4%nat _ Hb).
  unfold decrypt_spec. cbn [take drop].
  set (CR := pack_H h [c0; c1; c2; c3]). set (CL := pack_H h [c4; c5; c6; c7]).
  assert (HCR : is_halfword h CR) by (by apply pack_H_is_halfword).
  assert (HCL : is_halfword h CL) by (by apply pack_H_is_halfword).
  set (R0 := Z.lxor CR (ks_K1213 ks)).
  set (L0 := Z.lxor (Z.lxor CL (ks_K1415 ks)) R0).
  assert (HR0 : is_halfword h R0) by (by apply is_halfword_lxor).
  assert (HL0 : is_halfword h L0) by (by repeat apply is_halfword_lxor).
  destruct (decrypt_rounds_is_halfword h (rev (take 8 (ks_K ks))) (L0, R0) HL0 HR0)
    as [HL8 HR8].
  pose proof (fold_rounds_inverse_rev h (take 8 (ks_K ks)) (L0, R0)) as Hinv.
  set (LR := fold_left (decrypt_round h) (rev (take 8 (ks_K ks))) (L0, R0)) in *.
  unfold encrypt_spec. rewrite drop_4_unpack_H, take_4_unpack_H.
  rewrite take_4_unpack_H_nil.
  rewrite !pack_unpack_H by (by repeat apply is_halfword_lxor).
  rewrite (lxor_cancel_r LR.1).
  replace (Z.lxor (Z.lxor (Z.lxor (Z.lxor LR.2 LR.1) (ks_K1011 ks)) (ks_K1011 ks)) LR.1)
    with LR.2 by (by rewrite !lxor_cancel_r).
  rewrite <- surjective_pairing, Hinv. cbn [fst snd].
  unfold L0. rewrite !lxor_cancel_r. unfold R0. rewrite lxor_cancel_r.
  unfold CL, CR. rewrite !unpack_pack_H by (try reflexivity; assumption).
  reflexivity.
Qed.

Lemma encrypt_spec_bytes8 (h : Host) (ks : KeySchedule) (p : list Z) :
  length (encrypt_spec h ks p) = 8%nat /\ Forall is_byte (encrypt_spec h ks p).
Proof.
  split; [reflexivity|]. unfold encrypt_spec. cbv zeta.
  apply Forall_app_2; apply unpack_H_bytes.
Qed.

Lemma decrypt_spec_bytes8 (h : Host) (ks : KeySchedule) (c : list Z) :
  length (decrypt_spec h ks c) = 8%nat /\ Forall is_byte (decrypt_spec h ks c).
Proof.
  split; [reflexivity|]. unfold decrypt_spec. cbv zeta.
  apply Forall_app_2; apply unpack_H_bytes.
Qed.

Lemma SetKey_state (h : Host) (key : list Z) (g : Globals) :
  length key = 8%nat -> Forall is_byte key ->
  Rot2_state_ok g -> length (K g) = 16%nat ->
  exists g1,
    SetKey h key g = Some (tt, g1) /\
    schedule_of g1 = derive_schedule h key /\
    schedule_ok h (schedule_of g1) /\ length (K g1) = 16%nat /\ Rot2_state_ok g1.
Proof.
  intros Hk Hkb Hg HK.
  destruct (SetKey_run h key [] g Hk Hkb Hg HK) as (g1 & Hset & Hks & Hok1).
  rewrite app_nil_r in Hset. exists g1.
  pose proof (derive_schedule_ok h key) as Hsok. rewrite <- Hks in Hsok.
  split; [exact Hset|]. split; [exact Hks|]. split; [exact Hsok|].
  split; [apply Hsok | exact Hok1].
Qed.

Lemma FK_host_little_endian (dm : DataModel) (A B : Z) :
  FK_host (mkHost LittleEndian dm) A B = FK_lsb_first A B.
Proof.
  unfold FK_host, FK_lsb_first, FK_bytes.
  destruct (halfword_byte_little_endian dm A) as (-> & -> & -> & ->).
  destruct (halfword_byte_little_endian dm B) as (-> & -> & -> & ->).
  destruct (FK_bytes_of _ _ _ _ _ _ _ _) as [[[r0 r1] r2] r3] eqn:E.
  apply pack_H_little_endian.
  all: unfold FK_bytes_of in E; cbv zeta in E; injection E as <- <- <- <-;
    apply rot2_is_byte.
Qed.

(** X1. On a little-endian host, [FK(A, B)] is the halfword whose bytes,
    least significant first, are [(S0(a0, t1' xor b2), t1', t2',
    S1(a3, t2' xor b3))] with [t1 = a1 xor a0], [t2 = a2 xor a3],
    [t1' = S1(t1, t2 xor b0)], [t2' = S0(t2, t1' xor b1)], the [a] and [b]
    being the bytes of [A] and [B], least significant first. *)
Theorem X1_FK_formula (dm : DataModel) (A B : Z) (g : Globals) :
  Rot2_state_ok g ->
  FK (mkHost LittleEndian dm) A B g = Some (FK_lsb_first A B, Rot2_done g).
Proof.
  intros Hg. rewrite FK_run by assumption. by rewrite FK_host_little_endian.
Qed.

Lemma X1_FK_witness :
  FK (mkHost LittleEndian LP64) 1732584193 4023233417 initial_globals
  = Some (FK_lsb_first 1732584193 4023233417, Rot2_done initial_globals).
Proof.
  apply (X1_FK_formula LP64 1732584193 4023233417 initial_globals).
  exact Rot2_initial_ok.
Defined.

(** X2. For every 8-byte ciphertext block and every key schedule held in
    the process-wide variables, on every host, [Decrypt] returns the block
    of [decrypt_spec]: [R] from bytes 0..3 and [L] from bytes 4..7, the
    post-whitening undone, the round [(L, R) := (R xor f(L, K[r]), L)]
    folded over [K[7], ..., K[0]], the pre-whitening undone, and the four
    bytes of [L] followed by the four bytes of [R]. *)
Theorem X2_Decrypt_structure (h : Host) (block Plain : list Z) (g : Globals) :
  length block = 8%nat -> length Plain = 8%nat ->
  Rot2_state_ok g -> length (K g) = 16%nat ->
  exists g',
    Decrypt h block Plain g = Some (decrypt_spec h (schedule_of g) block, g') /\
    rev (take 8 (K g))
    = [subkey (K g) 7; subkey (K g) 6; subkey (K g) 5; subkey (K g) 4;
       subkey (K g) 3; subkey (K g) 2; subkey (K g) 1; subkey (K g) 0].
Proof.
  intros Hb HP Hg HK.
  destruct (Decrypt_run h block [] Plain g Hb HP Hg HK) as (g' & Hdec & _ & _).
  rewrite app_nil_r in Hdec. exists g'. split; [exact Hdec|].
  unfold subkey.
  destruct (K g) as [|k0 [|k1 [|k2 [|k3 [|k4 [|k5 [|k6 [|k7 l]]]]]]]]; try discriminate.
  reflexivity.
Qed.

Lemma X2_Decrypt_witness :
  exists g',
    Decrypt lp64_le main_plain (replicate 8 0) initial_globals
    = Some (decrypt_spec lp64_le (schedule_of initial_globals) main_plain, g') /\
    rev (take 8 (K initial_globals))
    = [subkey (K initial_globals) 7; subkey (K initial_globals) 6;
       subkey (K initial_globals) 5; subkey (K initial_globals) 4;
       subkey (K initial_globals) 3; subkey (K initial_globals) 2;
       subkey (K initial_globals) 1; subkey (K initial_globals) 0].
Proof.
  apply (X2_Decrypt_structure lp64_le main_plain (replicate 8 0) initial_globals).
  - reflexivity.
  - reflexivity.
  - exact Rot2_initial_ok.
  - reflexivity.
Defined.

(** X3. Encryption inverts decryption: for every 8-byte key and every
    8-byte block [c], on every host, [SetKey], then [Decrypt] of [c], then
    [Encrypt] of the result all return, and the block encrypted back is
    [c]. *)
Theorem X3_encrypt_decrypt_roundtrip
    (h : Host) (key c Plain Cipher : list Z) (g : Globals) :
  length key = 8%nat -> Forall is_byte key ->
  length c = 8%nat -> Forall is_byte c ->
  length Plain = 8%nat -> length Cipher = 8%nat ->
  Rot2_state_ok g -> length (K g) = 16%nat ->
  exists g1 p g2 g3,
    SetKey h key g = Some (tt, g1) /\
    Decrypt h c Plain g1 = Some (p, g2) /\
    Encrypt h p Cipher g2 = Some (c, g3).
Proof.
  intros Hk Hkb Hc Hcb HP HC Hg HK.
  destruct (SetKey_state h key g Hk Hkb Hg HK) as (g1 & Hset & _ & Hsok & HK1 & Hok1).
  destruct (Decrypt_run h c [] Plain g1 Hc HP Hok1 HK1) as (g2 & Hdec & Hks2 & Hok2).
  rewrite app_nil_r in Hdec.
  assert (HK2 : length (K g2) = 16%nat).
  { change (K g2) with (ks_K (schedule_of g2)). by rewrite Hks2. }
  destruct (decrypt_spec_bytes8 h (schedule_of g1) c) as [Hpl _].
  destruct (Encrypt_run h _ [] Cipher g2 Hpl HC Hok2 HK2) as (g3 & Henc & _ & _).
  rewrite app_nil_r in Henc.
  exists g1, (decrypt_spec h (schedule_of g1) c), g2, g3.
  split; [exact Hset|]. split; [exact Hdec|].
  rewrite Henc, Hks2. f_equal. f_equal. by apply encrypt_decrypt_spec.
Qed.

Lemma X3_roundtrip_witness :
  exists g1 p g2 g3,
    SetKey lp64_le main_key initial_globals = Some (tt, g1) /\
    Decrypt lp64_le [206; 239; 44; 134; 242; 73; 7; 82] (replicate 8 0) g1 = Some (p, g2) /\
    Encrypt lp64_le p (replicate 8 0) g2 = Some ([206; 239; 44; 134; 242; 73; 7; 82], g3).
Proof.
  apply (X3_encrypt_decrypt_roundtrip lp64_le main_key
           [206; 239; 44; 134; 242; 73; 7; 82] (replicate 8 0) (replicate 8 0)
           initial_globals).
  - reflexivity.
  - unfold main_key, is_byte. repeat constructor; lia.
  - reflexivity.
  - unfold is_byte. repeat constructor; lia.
  - reflexivity.
  - reflexivity.
  - exact Rot2_initial_ok.
  - reflexivity.
Defined.

(** X4. Under any key schedule whose whitening values are halfwords,
    [Encrypt] is injective on 8-byte blocks: both calls return, and equal
    ciphertexts come only from equal plaintexts. *)
Theorem X4_Encrypt_injective
    (h : Host) (p1 p2 Cipher1 Cipher2 : list Z) (g : Globals) :
  length p1 = 8%nat -> Forall is_byte p1 ->
  length p2 = 8%nat -> Forall is_byte p2 ->
  length Cipher1 = 8%nat -> length Cipher2 = 8%nat ->
  Rot2_state_ok g -> schedule_ok h (schedule_of g) ->
  exists c1 c2 g1 g2,
    Encrypt h p1 Cipher1 g = Some (c1, g1) /\
    Encrypt h p2 Cipher2 g = Some (c2, g2) /\
    (c1 = c2 -> p1 = p2).
Proof.
  intros H1 Hb1 H2 Hb2 HC1 HC2 Hg Hsok.
  assert (HK : length (K g) = 16%nat) by apply Hsok.
  destruct (Encrypt_run h p1 [] Cipher1 g H1 HC1 Hg HK) as (g1 & He1 & _ & _).
  destruct (Encrypt_run h p2 [] Cipher2 g H2 HC2 Hg HK) as (g2 & He2 & _ & _).
  rewrite app_nil_r in He1, He2.
  eexists _, _, g1, g2. split; [exact He1|]. split; [exact He2|].
  intros E.
  rewrite <- (decrypt_encrypt_spec h (schedule_of g) p1) by assumption.
  rewrite <- (decrypt_encrypt_spec h (schedule_of g) p2) by assumption.
  by rewrite E.
Qed.

Lemma schedule_ok_initial (h : Host) : schedule_ok h (schedule_of initial_globals).
Proof.
  assert (H0 : is_halfword h 0).
  { exists [0; 0; 0; 0]. split; [reflexivity|]. split.
    - repeat apply Forall_cons_2; try apply Forall_nil_2; unfold is_byte; lia.
    - symmetry. apply pack_H_zero. }
  split; [reflexivity|]. cbn [schedule_of ks_K89 ks_K1011 ks_K1213 ks_K1415].
  cbn [K89 K1011 K1213 K1415 initial_globals]. auto.
Qed.

Lemma X4_injective_witness :
  exists c1 c2 g1 g2,
    Encrypt lp64_le main_plain (replicate 8 0) initial_globals = Some (c1, g1) /\
    Encrypt lp64_le main_key (replicate 8 0) initial_globals = Some (c2, g2) /\
    (c1 = c2 -> main_plain = main_key).
Proof.
  apply (X4_Encrypt_injective lp64_le main_plain main_key (replicate 8 0) (replicate 8 0)
           initial_globals).
  - reflexivity.
  - unfold main_plain, is_byte. repeat constructor; lia.
  - reflexivity.
  - unfold main_key, is_byte. repeat constructor; lia.
  - reflexivity.
  - reflexivity.
  - exact Rot2_initial_ok.
  - exact (schedule_ok_initial lp64_le).
Defined.

(** ** The bytes of the result do not depend on the host *)

Lemma SetKey_Encrypt_bytes (h : Host) (key block Cipher : list Z) (g : Globals) :
  length key = 8%nat -> Forall is_byte key ->
  length block = 8%nat -> Forall is_byte block -> length Cipher = 8%nat ->
  Rot2_state_ok g -> length (K g) = 16%nat ->
  exists g1 g2,
    SetKey h key g = Some (tt, g1) /\
    Encrypt h block Cipher g1
    = Some (encrypt_bytes (derive_schedule_bytes key) block, g2).
Proof.
  intros Hk Hkb Hb Hbb HC Hg HK.
  destruct (SetKey_state h key g Hk Hkb Hg HK) as (g1 & Hset & Hks & _ & HK1 & Hok1).
  destruct (Encrypt_run h block [] Cipher g1 Hb HC Hok1 HK1) as (g2 & Henc & _ & _).
  rewrite app_nil_r in Henc. exists g1, g2. split; [exact Hset|].
  rewrite Henc, Hks, derive_schedule_pack by assumption.
  destruct (derive_schedule_bytes_ok key) as (? & ? & ? & ? & ?).
  by rewrite encrypt_spec_bytes.
Qed.

Lemma SetKey_Decrypt_bytes (h : Host) (key block Plain : list Z) (g : Globals) :
  length key = 8%nat -> Forall is_byte key ->
  length block = 8%nat -> Forall is_byte block -> length Plain = 8%nat ->
  Rot2_state_ok g -> length (K g) = 16%nat ->
  exists g1 g2,
    SetKey h key g = Some (tt, g1) /\
    Decrypt h block Plain g1
    = Some (decrypt_bytes (derive_schedule_bytes key) block, g2).
Proof.
  intros Hk Hkb Hb Hbb HP Hg HK.
  destruct (SetKey_state h key g Hk Hkb Hg HK) as (g1 & Hset & Hks & _ & HK1 & Hok1).
  destruct (Decrypt_run h block [] Plain g1 Hb HP Hok1 HK1) as (g2 & Hdec & _ & _).
  rewrite app_nil_r in Hdec. exists g1, g2. split; [exact Hset|].
  rewrite Hdec, Hks, derive_schedule_pack by assumption.
  destruct (derive_schedule_bytes_ok key) as (? & ? & ? & ? & ?).
  by rewrite decrypt_spec_bytes.
Qed.

(** X5. The ciphertext bytes do not depend on the host: for every 8-byte
    key and block, on any two hosts (either byte order, 4- or 8-byte
    [unsigned long]) [SetKey] then [Encrypt] return the same eight bytes,
    those of the cipher computed on bytes alone. *)
Theorem X5_Encrypt_host_independent
    (h1 h2 : Host) (key block Cipher : list Z) (g : Globals) :
  length key = 8%nat -> Forall is_byte key ->
  length block = 8%nat -> Forall is_byte block -> length Cipher = 8%nat ->
  Rot2_state_ok g -> length (K g) = 16%nat ->
  exists c ga ga' gb gb',
    SetKey h1 key g = Some (tt, ga) /\ Encrypt h1 block Cipher ga = Some (c, ga') /\
    SetKey h2 key g = Some (tt, gb) /\ Encrypt h2 block Cipher gb = Some (c, gb') /\
    c = encrypt_bytes (derive_schedule_bytes key) block.
Proof.
  intros Hk Hkb Hb Hbb HC Hg HK.
  destruct (SetKey_Encrypt_bytes h1 key block Cipher g) as (ga & ga' & Hs1 & He1); try assumption.
  destruct (SetKey_Encrypt_bytes h2 key block Cipher g) as (gb & gb' & Hs2 & He2); try assumption.
  eexists _, ga, ga', gb, gb'. repeat (split; [eassumption|]). reflexivity.
Qed.

Lemma X5_Encrypt_host_witness :
  exists c ga ga' gb gb',
    SetKey lp64_le main_key initial_globals = Some (tt, ga) /\
    Encrypt lp64_le main_plain (replicate 8 0) ga = Some (c, ga') /\
    SetKey ilp32_be main_key initial_globals = Some (tt, gb) /\
    Encrypt ilp32_be main_plain (replicate 8 0) gb = Some (c, gb') /\
    c = encrypt_bytes (derive_schedule_bytes main_key) main_plain.
Proof.
  apply (X5_Encrypt_host_independent lp64_le ilp32_be main_key main_plain
           (replicate 8 0) initial_globals).
  - reflexivity.
  - unfold main_key, is_byte. repeat constructor; lia.
  - reflexivity.
  - unfold main_plain, is_byte. repeat constructor; lia.
  - reflexivity.
  - exact Rot2_initial_ok.
  - reflexivity.
Defined.

(** X6. The decrypted bytes do not depend on the host either: on any two
    hosts [SetKey] then [Decrypt] return the same eight bytes. *)
Theorem X6_Decrypt_host_independent
    (h1 h2 : Host) (key block Plain : list Z) (g : Globals) :
  length key = 8%nat -> Forall is_byte key ->
  length block = 8%nat -> Forall is_byte block -> length Plain = 8%nat ->
  Rot2_state_ok g -> length (K g) = 16%nat ->
  exists p ga ga' gb gb',
    SetKey h1 key g = Some (tt, ga) /\ Decrypt h1 block Plain ga = Some (p, ga') /\
    SetKey h2 key g = Some (tt, gb) /\ Decrypt h2 block Plain gb = Some (p, gb') /\
    p = decrypt_bytes (derive_schedule_bytes key) block.
Proof.
  intros Hk Hkb Hb Hbb HP Hg HK.
  destruct (SetKey_Decrypt_bytes h1 key block Plain g) as (ga & ga' & Hs1 & He1); try assumption.
  destruct (SetKey_Decrypt_bytes h2 key block Plain g) as (gb & gb' & Hs2 & He2); try assumption.
  eexists _, ga, ga', gb, gb'. repeat (split; [eassumption|]). reflexivity.
Qed.

Lemma X6_Decrypt_host_witness :
  exists p ga ga' gb gb',
    SetKey lp64_le main_key initial_globals = Some (tt, ga) /\
    Decrypt lp64_le main_plain (replicate 8 0) ga = Some (p, ga') /\
    SetKey lp64_be main_key initial_globals = Some (tt, gb) /\
    Decrypt lp64_be main_plain (replicate 8 0) gb = Some (p, gb') /\
    p = decrypt_bytes (derive_schedule_bytes main_key) main_plain.
Proof.
  apply (X6_Decrypt_host_independent lp64_le lp64_be main_key main_plain
           (replicate 8 0) initial_globals).
  - reflexivity.
  - unfold main_key, is_byte. repeat constructor; lia.
  - reflexivity.
  - unfold main_plain, is_byte. repeat constructor; lia.
  - reflexivity.
  - exact Rot2_initial_ok.
  - reflexivity.
Defined.

(** The cipher on bytes alone gives the published ciphertext of the test
    harness. *)
Example encrypt_bytes_known_answer :
  encrypt_bytes (derive_schedule_bytes main_key) main_plain
  = [206; 239; 44; 134; 242; 73; 7; 82].
Proof. vm_compute. reflexivity. Qed.

(** ** Little-endian hosts: only the low bytes count *)

Lemma byte_of_mod (v i w : Z) :
  0 <= i -> 8 * i + 8 <= w -> byte_of (v mod 2 ^ w) i = byte_of v i.
Proof.
  intros Hi Hw. unfold byte_of. apply Z.bits_inj'. intros n Hn.
  rewrite !Z.land_spec, !Z.shiftr_spec by lia.
  destruct (Z.lt_ge_cases n 8) as [Hlt|Hge].
  - by rewrite Z.mod_pow2_bits_low by lia.
  - change 255 with (Z.ones 8). rewrite Z.ones_spec_high by lia.
    by rewrite !andb_false_r.
Qed.

Lemma low_halfword (v : Z) :
  v mod 2 ^ 16 = byte_of v 0 + 256 * byte_of v 1.
Proof.
  rewrite byte_of_0, byte_of_1. change (2 ^ 16) with (256 * 256).
  rewrite Z.rem_mul_r by lia. reflexivity.
Qed.

Lemma halfword_from_two_quarterwords_little_endian (dm : DataModel) (q0 q1 : Z) :
  halfword_from_two_quarterwords (mkHost LittleEndian dm) q0 q1
  = q0 mod 2 ^ 16 + 2 ^ 16 * (q1 mod 2 ^ 16).
Proof.
  unfold halfword_from_two_quarterwords, unpack_Q.
  destruct (quarterword_byte_little_endian dm q0) as (-> & ->).
  destruct (quarterword_byte_little_endian dm q1) as (-> & ->).
  cbn [app].
  assert (Hb : forall v i, is_byte (byte_of v i))
    by (intros v i; unfold byte_of; rewrite land_255; apply to_ByteType_is_byte).
  rewrite pack_H_little_endian by apply Hb.
  rewrite bytes_to_halfword_sum by apply Hb.
  rewrite !low_halfword. change (2 ^ 16) with 65536. lia.
Qed.

(** X7. On a little-endian host [MakeH2] returns the halfword whose low 16
    bits are the low 16 bits of the first quarterword and whose next 16
    bits are the low 16 bits of the second: bits of either above bit 15 are
    dropped, and the array is left as it was. *)
Theorem X7_MakeH2_value
    (dm : DataModel) (Q : list Z) (off : nat) (q0 q1 : Z) (g : Globals) :
  Q !! off = Some q0 -> Q !! (off + 1)%nat = Some q1 ->
  MakeH2 (mkHost LittleEndian dm) Q off g
  = Some (q0 mod 2 ^ 16 + 2 ^ 16 * (q1 mod 2 ^ 16), g) /\
  0 <= q0 mod 2 ^ 16 + 2 ^ 16 * (q1 mod 2 ^ 16) < 2 ^ 32.
Proof.
  intros H0 H1. split.
  - erewrite MakeH2_run by eassumption.
    by rewrite halfword_from_two_quarterwords_little_endian.
  - pose proof (Z.mod_pos_bound q0 (2 ^ 16) ltac:(lia)).
    pose proof (Z.mod_pos_bound q1 (2 ^ 16) ltac:(lia)).
    change (2 ^ 32) with (2 ^ 16 * 2 ^ 16). nia.
Qed.

Lemma X7_MakeH2_witness :
  MakeH2 (mkHost LittleEndian LP64) [7; 15327; 4294967295] 1 initial_globals
  = Some (15327 mod 2 ^ 16 + 2 ^ 16 * (4294967295 mod 2 ^ 16), initial_globals) /\
  0 <= 15327 mod 2 ^ 16 + 2 ^ 16 * (4294967295 mod 2 ^ 16) < 2 ^ 32.
Proof.
  apply (X7_MakeH2_value LP64 [7; 15327; 4294967295] 1 15327 4294967295 initial_globals);
    reflexivity.
Defined.

(** X8. On a little-endian host, after [SetKey] each whitening halfword
    is its two subkeys side by side: [K89 = K[8] + 2^16 * K[9]],
    [K1011 = K[10] + 2^16 * K[11]], [K1213 = K[12] + 2^16 * K[13]],
    [K1415 = K[14] + 2^16 * K[15]]. *)
Theorem X8_whitening_from_subkeys (dm : DataModel) (key : list Z) (g : Globals) :
  length key = 8%nat -> Forall is_byte key ->
  Rot2_state_ok g -> length (K g) = 16%nat ->
  exists g',
    SetKey (mkHost LittleEndian dm) key g = Some (tt, g') /\
    K89 g' = subkey (K g') 8 + 2 ^ 16 * subkey (K g') 9 /\
    K1011 g' = subkey (K g') 10 + 2 ^ 16 * subkey (K g') 11 /\
    K1213 g' = subkey (K g') 12 + 2 ^ 16 * subkey (K g') 13 /\
    K1415 g' = subkey (K g') 14 + 2 ^ 16 * subkey (K g') 15.
Proof.
  intros Hk Hkb Hg HK. set (h := mkHost LittleEndian dm).
  destruct (SetKey_state h key g Hk Hkb Hg HK) as (g' & Hset & Hks & _ & HK' & _).
  exists g'. split; [exact Hset|].
  assert (Hq : forall i, (i < 16)%nat -> 0 <= subkey (K g') i < 2 ^ 16).
  { intros i Hi. apply (is_quarterword_little_endian dm).
    change (K g') with (ks_K (schedule_of g')). rewrite Hks.
    unfold derive_schedule. cbn [ks_K].
    eapply Forall_lookup_1; [apply schedule_rounds_quarterwords|].
    apply lookup_subkey. rewrite length_schedule_rounds. lia. }
  assert (Hw : forall i j, (i < 16)%nat -> (j < 16)%nat ->
             halfword_from_two_quarterwords h (subkey (K g') i) (subkey (K g') j)
             = subkey (K g') i + 2 ^ 16 * subkey (K g') j).
  { intros i j Hi Hj. unfold h.
    rewrite halfword_from_two_quarterwords_little_endian.
    by rewrite !Z.mod_small by (apply Hq; assumption). }
  change (K89 g') with (ks_K89 (schedule_of g')).
  change (K1011 g') with (ks_K1011 (schedule_of g')).
  change (K1213 g') with (ks_K1213 (schedule_of g')).
  change (K1415 g') with (ks_K1415 (schedule_of g')).
  change (K g') with (ks_K (schedule_of g')) in Hw |- *.
  rewrite Hks in Hw |- *. unfold derive_schedule in Hw |- *.
  cbn [ks_K ks_K89 ks_K1011 ks_K1213 ks_K1415] in Hw |- *.
  repeat split; apply Hw; lia.
Qed.

Lemma X8_whitening_witness :
  exists g',
    SetKey (mkHost LittleEndian LP64) main_key initial_globals = Some (tt, g') /\
    K89 g' = subkey (K g') 8 + 2 ^ 16 * subkey (K g') 9 /\
    K1011 g' = subkey (K g') 10 + 2 ^ 16 * subkey (K g') 11 /\
    K1213 g' = subkey (K g') 12 + 2 ^ 16 * subkey (K g') 13 /\
    K1415 g' = subkey (K g') 14 + 2 ^ 16 * subkey (K g') 15.
Proof.
  apply (X8_whitening_from_subkeys LP64 main_key initial_globals).
  - reflexivity.
  - unfold main_key, is_byte. repeat constructor; lia.
  - exact Rot2_initial_ok.
  - reflexivity.
Defined.

(** X9. On a little-endian host [f] reads only the low 32 bits of its
    halfword and the low 16 bits of its quarterword, and [FK] only the low
    32 bits of each halfword: bits above do not change the result. *)
Theorem X9_f_FK_low_bits (dm : DataModel) (A B : Z) (g : Globals) :
  Rot2_state_ok g ->
  f (mkHost LittleEndian dm) A B g
  = f (mkHost LittleEndian dm) (A mod 2 ^ 32) (B mod 2 ^ 16) g /\
  FK (mkHost LittleEndian dm) A B g
  = FK (mkHost LittleEndian dm) (A mod 2 ^ 32) (B mod 2 ^ 32) g /\
  exists v g', f (mkHost LittleEndian dm) A B g = Some (v, g').
Proof.
  intros Hg. split; [|split].
  - rewrite !f_run, !f_host_little_endian by assumption.
    unfold f_lsb_first. by rewrite !byte_of_mod by lia.
  - rewrite !FK_run, !FK_host_little_endian by assumption.
    unfold FK_lsb_first. by rewrite !byte_of_mod by lia.
  - eexists _, _. by apply f_run.
Qed.

Lemma X9_low_bits_witness :
  f (mkHost LittleEndian LP64) (2 ^ 40 + 5) (2 ^ 20 + 3) initial_globals
  = f (mkHost LittleEndian LP64) ((2 ^ 40 + 5) mod 2 ^ 32) ((2 ^ 20 + 3) mod 2 ^ 16)
      initial_globals /\
  FK (mkHost LittleEndian LP64) (2 ^ 40 + 5) (2 ^ 20 + 3) initial_globals
  = FK (mkHost LittleEndian LP64) ((2 ^ 40 + 5) mod 2 ^ 32) ((2 ^ 20 + 3) mod 2 ^ 32)
       initial_globals /\
  exists v g', f (mkHost LittleEndian LP64) (2 ^ 40 + 5) (2 ^ 20 + 3) initial_globals
               = Some (v, g').
Proof.
  apply (X9_f_FK_low_bits LP64 (2 ^ 40 + 5) (2 ^ 20 + 3) initial_globals).
  exact Rot2_initial_ok.
Defined.

(** ** What the calls write *)

(** X10. [DissH1(H, D + off)] with its four bytes inside the array returns
    without touching the process-wide state, keeps the length of the array,
    writes at [off .. off+3] the four low bytes of [H], least significant
    first (on a little-endian host), and leaves every other element as it
    was. *)
Theorem X10_DissH1_writes_four_bytes
    (dm : DataModel) (H : Z) (D : list Z) (off : nat) (g : Globals) :
  (off + 4 <= length D)%nat ->
  exists D',
    DissH1 (mkHost LittleEndian dm) H D off g = Some (D', g) /\
    length D' = length D /\
    D' !! off = Some (byte_of H 0) /\ D' !! (off + 1)%nat = Some (byte_of H 1) /\
    D' !! (off + 2)%nat = Some (byte_of H 2) /\ D' !! (off + 3)%nat = Some (byte_of H 3) /\
    forall i, (i < off \/ off + 4 <= i)%nat -> D' !! i = D !! i.
Proof.
  intros Hl. eexists. split; [by apply DissH1_run|].
  destruct (halfword_byte_little_endian dm H) as (-> & -> & -> & ->).
  split; [by rewrite !length_insert|].
  split; [|split; [|split; [|split]]].
  - rewrite !list_lookup_insert_ne by lia.
    apply list_lookup_insert_eq. lia.
  - rewrite !list_lookup_insert_ne by lia.
    apply list_lookup_insert_eq. rewrite !length_insert. lia.
  - rewrite !list_lookup_insert_ne by lia.
    apply list_lookup_insert_eq. rewrite !length_insert. lia.
  - apply list_lookup_insert_eq. rewrite !length_insert. lia.
  - intros i Hi. by rewrite !list_lookup_insert_ne by lia.
Qed.

Lemma X10_DissH1_witness :
  exists D',
    DissH1 (mkHost LittleEndian LP64) 16909060 [9; 9; 9; 9; 9; 9; 9; 9] 4 initial_globals
    = Some (D', initial_globals) /\
    length D' = length [9; 9; 9; 9; 9; 9; 9; 9] /\
    D' !! 4%nat = Some (byte_of 16909060 0) /\
    D' !! (4 + 1)%nat = Some (byte_of 16909060 1) /\
    D' !! (4 + 2)%nat = Some (byte_of 16909060 2) /\
    D' !! (4 + 3)%nat = Some (byte_of 16909060 3) /\
    forall i, (i < 4 \/ 4 + 4 <= i)%nat -> D' !! i = [9; 9; 9; 9; 9; 9; 9; 9] !! i.
Proof.
  apply (X10_DissH1_writes_four_bytes LP64 16909060 [9; 9; 9; 9; 9; 9; 9; 9] 4
           initial_globals).
  simpl. lia.
Defined.

(** ** The statics of Rot2 *)

(** X11. The table of [Rot2] is filled once: from a state whose table has
    its 256 entries, a first call returns the rotation, clears [First],
    leaves the rotation table in [RetVal] and the key schedule as it was;
    any later call returns the rotation and leaves the whole state
    unchanged. *)
Theorem X11_Rot2_fills_once (g : Globals) (X Y : Z) :
  Rot2_state_ok g -> is_byte X -> is_byte Y ->
  exists g1,
    Rot2 X g = Some (rot2 X, g1) /\
    Rot2_First g1 = 0 /\ Rot2_RetVal g1 = Rot2_table /\
    schedule_of g1 = schedule_of g /\
    Rot2 Y g1 = Some (rot2 Y, g1).
Proof.
  intros Hg HX HY. exists (Rot2_done g).
  split; [by apply Rot2_run|]. do 3 (split; [reflexivity|]).
  rewrite Rot2_run by (apply Rot2_done_ok || assumption).
  by rewrite Rot2_done_idem.
Qed.

Lemma X11_Rot2_witness :
  exists g1,
    Rot2 129 initial_globals = Some (rot2 129, g1) /\
    Rot2_First g1 = 0 /\ Rot2_RetVal g1 = Rot2_table /\
    schedule_of g1 = schedule_of initial_globals /\
    Rot2 3 g1 = Some (rot2 3, g1).
Proof.
  apply (X11_Rot2_fills_once initial_globals 129 3).
  - exact Rot2_initial_ok.
  - unfold is_byte; lia.
  - unfold is_byte; lia.
Defined.

Lemma rot2_four_times (x : Z) : is_byte x -> rot2 (rot2 (rot2 (rot2 x))) = x.
Proof.
  intros Hx. apply Z.eqb_eq.
  apply (byte_cases (fun x => rot2 (rot2 (rot2 (rot2 x))) =? x)); [|exact Hx].
  vm_compute. reflexivity.
Qed.

(** X12. [Rot2] is a permutation of the bytes: four successive calls give
    back the byte they started from, and two bytes with the same image are
    equal. *)
Theorem X12_Rot2_permutation (g : Globals) (X Y : Z) :
  Rot2_state_ok g -> is_byte X -> is_byte Y ->
  (do a <- Rot2 X; do b <- Rot2 a; do c <- Rot2 b; Rot2 c) g
  = Some (X, Rot2_done g) /\
  (Rot2 X g = Rot2 Y g -> X = Y).
Proof.
  intros Hg HX HY. pose proof (Rot2_done_ok g) as Hd. split.
  - erewrite bind_run by (by apply Rot2_run).
    erewrite bind_run by (apply Rot2_run; [exact Hd | apply rot2_is_byte]).
    erewrite bind_run by (apply Rot2_run; [exact Hd | apply rot2_is_byte]).
    rewrite Rot2_run by (exact Hd || apply rot2_is_byte).
    by rewrite rot2_four_times.
  - rewrite !Rot2_run by assumption. intros E. injection E as E.
    rewrite <- (rot2_four_times X), <- (rot2_four_times Y) by assumption.
    by rewrite E.
Qed.

Lemma X12_Rot2_permutation_witness :
  (do a <- Rot2 77; do b <- Rot2 a; do c <- Rot2 b; Rot2 c) initial_globals
  = Some (77, Rot2_done initial_globals) /\
  (Rot2 77 initial_globals = Rot2 78 initial_globals -> 77 = 78).
Proof.
  apply (X12_Rot2_permutation initial_globals 77 78).
  - exact Rot2_initial_ok.
  - unfold is_byte; lia.
  - unfold is_byte; lia.
Defined.

(** ** No hidden state *)

(** X13. The block [Encrypt] returns depends on the plaintext and the key
    schedule only: from two states with the same schedule, whatever the
    state of the table of [Rot2] (filled or not) and whatever the output
    arrays held before, both calls return the same eight bytes; likewise
    for [Decrypt]. *)
Theorem X13_result_depends_on_schedule_only
    (h : Host) (block out1 out2 : list Z) (g1 g2 : Globals) :
  length block = 8%nat -> length out1 = 8%nat -> length out2 = 8%nat ->
  Rot2_state_ok g1 -> Rot2_state_ok g2 -> length (K g1) = 16%nat ->
  schedule_of g1 = schedule_of g2 ->
  (exists c g1' g2',
     Encrypt h block out1 g1 = Some (c, g1') /\ Encrypt h block out2 g2 = Some (c, g2')) /\
  (exists p g1' g2',
     Decrypt h block out1 g1 = Some (p, g1') /\ Decrypt h block out2 g2 = Some (p, g2')).
Proof.
  intros Hb Ho1 Ho2 Hg1 Hg2 HK1 Hks.
  assert (HK2 : length (K g2) = 16%nat).
  { change (K g2) with (ks_K (schedule_of g2)). by rewrite <- Hks. }
  split.
  - destruct (Encrypt_run h block [] out1 g1 Hb Ho1 Hg1 HK1) as (g1' & He1 & _ & _).
    destruct (Encrypt_run h block [] out2 g2 Hb Ho2 Hg2 HK2) as (g2' & He2 & _ & _).
    rewrite app_nil_r in He1, He2. eexists _, g1', g2'.
    split; [exact He1|]. by rewrite He2, Hks.
  - destruct (Decrypt_run h block [] out1 g1 Hb Ho1 Hg1 HK1) as (g1' & He1 & _ & _).
    destruct (Decrypt_run h block [] out2 g2 Hb Ho2 Hg2 HK2) as (g2' & He2 & _ & _).
    rewrite app_nil_r in He1, He2. eexists _, g1', g2'.
    split; [exact He1|]. by rewrite He2, Hks.
Qed.

Lemma X13_schedule_only_witness :
  (exists c g1' g2',
     Encrypt lp64_le main_key (replicate 8 0) initial_globals = Some (c, g1') /\
     Encrypt lp64_le main_key (replicate 8 255) (Rot2_done initial_globals) = Some (c, g2')) /\
  (exists p g1' g2',
     Decrypt lp64_le main_key (replicate 8 0) initial_globals = Some (p, g1') /\
     Decrypt lp64_le main_key (replicate 8 255) (Rot2_done initial_globals) = Some (p, g2')).
Proof.
  apply (X13_result_depends_on_schedule_only lp64_le main_key (replicate 8 0)
           (replicate 8 255) initial_globals (Rot2_done initial_globals)).
  - reflexivity.
  - reflexivity.
  - reflexivity.
  - exact Rot2_initial_ok.
  - exact (Rot2_done_ok initial_globals).
  - reflexivity.
  - reflexivity.
Defined.

(** ** Arrays shorter than eight bytes *)

Lemma Encrypt_short_output (h : Host) (block out : list Z) (g : Globals) :
  length block = 8%nat -> (length out < 8)%nat ->
  Rot2_state_ok g -> length (K g) = 16%nat ->
  Encrypt h block out g = None.
Proof.
  intros Hb Ho Hg HK.
  destruct block as [|p0 [|p1 [|p2 [|p3 [|p4 [|p5 [|p6 [|p7 [|]]]]]]]]]; try discriminate.
  set (L0 := Z.lxor (pack_H h [p0; p1; p2; p3]) (K89 g)).
  set (R0 := Z.lxor (Z.lxor (pack_H h [p4; p5; p6; p7]) (K1011 g)) L0).
  destruct (Encrypt_loop_run h 8 L0 R0 g) as (g' & Hrun & _ & _); [lia | assumption..|].
  change (8 - Z.of_nat 8) with 0 in Hrun.
  unfold Encrypt.
  erewrite bind_run by (apply MakeH1_run; reflexivity).
  erewrite bind_run by (apply MakeH1_run; reflexivity).
  erewrite bind_run by apply gets_run.
  erewrite bind_run by apply gets_run.
  cbv zeta. fold L0. fold R0.
  erewrite bind_run by exact Hrun.
  erewrite bind_run by apply gets_run.
  erewrite bind_run by apply gets_run.
  destruct out as [|? [|? [|? [|? [|? [|? [|? [|? ?]]]]]]]];
    try reflexivity. simpl in Ho. lia.
Qed.

Lemma Decrypt_short_output (h : Host) (block out : list Z) (g : Globals) :
  length block = 8%nat -> (length out < 8)%nat ->
  Rot2_state_ok g -> length (K g) = 16%nat ->
  Decrypt h block out g = None.
Proof.
  intros Hb Ho Hg HK.
  destruct block as [|c0 [|c1 [|c2 [|c3 [|c4 [|c5 [|c6 [|c7 [|]]]]]]]]]; try discriminate.
  set (R0 := Z.lxor (pack_H h [c0; c1; c2; c3]) (K1213 g)).
  set (L0 := Z.lxor (Z.lxor (pack_H h [c4; c5; c6; c7]) (K1415 g)) R0).
  destruct (Decrypt_loop_run h 8 L0 R0 g) as (g' & Hrun & _ & _); [lia | assumption..|].
  change (Z.of_nat 8 - 1) with 7 in Hrun.
  unfold Decrypt.
  erewrite bind_run by (apply MakeH1_run; reflexivity).
  erewrite bind_run by (apply MakeH1_run; reflexivity).
  erewrite bind_run by apply gets_run.
  erewrite bind_run by apply gets_run.
  cbv zeta. fold R0. fold L0.
  erewrite bind_run by exact Hrun.
  erewrite bind_run by apply gets_run.
  erewrite bind_run by apply gets_run.
  destruct out as [|? [|? [|? [|? [|? [|? [|? [|? ?]]]]]]]];
    try reflexivity. simpl in Ho. lia.
Qed.

(** X14. The functions index their arrays at 0..7 whatever the arrays
    hold: when the key, the input block or the output array has fewer than
    eight elements, [SetKey], [Encrypt] and [Decrypt] read or write outside
    it, which is undefined behaviour and has no result. *)
Theorem X14_arrays_shorter_than_8
    (h : Host) (short block : list Z) (g : Globals) :
  (length short < 8)%nat -> length block = 8%nat ->
  Rot2_state_ok g -> length (K g) = 16%nat ->
  SetKey h short g = None /\
  Encrypt h short block g = None /\ Decrypt h short block g = None /\
  Encrypt h block short g = None /\ Decrypt h block short g = None.
Proof.
  intros Hs Hb Hg HK.
  split; [|split; [|split; [|split]]].
  - destruct short as [|? [|? [|? [|? [|? [|? [|? [|? ?]]]]]]]];
      try reflexivity. simpl in Hs. lia.
  - destruct short as [|? [|? [|? [|? [|? [|? [|? [|? ?]]]]]]]];
      try reflexivity. simpl in Hs. lia.
  - destruct short as [|? [|? [|? [|? [|? [|? [|? [|? ?]]]]]]]];
      try reflexivity. simpl in Hs. lia.
  - by apply Encrypt_short_output.
  - by apply Decrypt_short_output.
Qed.

Lemma X14_short_arrays_witness :
  SetKey lp64_le [1; 35; 69; 103; 137; 171; 205] initial_globals = None /\
  Encrypt lp64_le [1; 35; 69; 103; 137; 171; 205] main_plain initial_globals = None /\
  Decrypt lp64_le [1; 35; 69; 103; 137; 171; 205] main_plain initial_globals = None /\
  Encrypt lp64_le main_plain [1; 35; 69; 103; 137; 171; 205] initial_globals = None /\
  Decrypt lp64_le main_plain [1; 35; 69; 103; 137; 171; 205] initial_globals = None.
Proof.
  apply (X14_arrays_shorter_than_8 lp64_le [1; 35; 69; 103; 137; 171; 205] main_plain
           initial_globals).
  - simpl. lia.
  - reflexivity.
  - exact Rot2_initial_ok.
  - reflexivity.
Defined.
